(** * Camera-relative stick: a shallow embedding of
    [camera_relative_stick_pygame.py] and the properties of its
    transform loop, calibration wizard and shared configuration store.

    Conventions of the embedding.

    - Python floats are idealised as exact numbers: real numbers [R] where
      the code needs [math.hypot], [math.pi] or the float remainder [%]
      (deadzone, yaw integration), rationals [Q] where only field
      operations, comparisons and [round] occur (trigger normalisation,
      pointer remainder, the axis samples of the calibration probes), so
      that the latter stay executable.
    - A Python exception is an explicit [Raise] result.
    - Python dicts ([Config.__dict__], the calibration map, a binding) are
      finite maps [gmap string pyval].
    - The [json] module, the file system and the pygame device are outside
      the program: serialisation and parsing are parameters, the persisted
      document is an [option string] carried in the state, and the device is
      a record of the values its getters return after each
      [pygame.event.pump()]. *)

From Stdlib Require Import Reals Psatz ZArith QArith Qround Qabs Ascii String.
From stdpp Require Import gmap strings list pretty.

#[local] Set Warnings "-register-all".

(** ** Python results and values *)

Inductive py_exn : Type :=
  | ZeroDivisionError
  | AttributeError
  | TypeError
  | ValueError
  | IndexError
  | KeyError
  | PygameError
  | KeyboardInterrupt.

Inductive result (A : Type) : Type :=
  | Ok (a : A)
  | Raise (e : py_exn).
Arguments Ok {A} a.
Arguments Raise {A} e.

#[global] Instance result_ret : MRet result := fun _ a => Ok a.
#[global] Instance result_bind : MBind result := fun _ _ f m =>
  match m with Ok a => f a | Raise e => Raise e end.

(** The values a configuration attribute or a calibration entry can hold:
    what [json.load] produces, and what the program itself stores. *)
Inductive pyval : Type :=
  | PyNone
  | PyBool (b : bool)
  | PyInt (z : Z)
  | PyFloat (q : Q)
  | PyStr (s : string)
  | PyList (l : list pyval)
  | PyDict (d : gmap string pyval).

Section PythonBuiltins.
Local Open Scope Z_scope.

Definition is_space (c : ascii) : bool :=
  let n := nat_of_ascii c in
  ((9 <=? n)%nat && (n <=? 13)%nat) || (n =? 32)%nat.

Fixpoint lstrip (s : string) : string :=
  match s with
  | String c rest => if is_space c then lstrip rest else s
  | EmptyString => EmptyString
  end.

Definition strip (s : string) : string :=
  String.rev (lstrip (String.rev (lstrip s))).

Definition digit_of (c : ascii) : option Z :=
  let n := nat_of_ascii c in
  if (48 <=? n)%nat && (n <=? 57)%nat then Some (Z.of_nat (n - 48)) else None.

(** Decimal digits, single underscores allowed between two digits. *)
Fixpoint parse_digits (acc : Z) (after_digit : bool) (s : string) : option Z :=
  match s with
  | EmptyString => if after_digit then Some acc else None
  | String c rest =>
      match digit_of c with
      | Some d => parse_digits (10 * acc + d) true rest
      | None =>
          if Ascii.eqb c "_" && after_digit then parse_digits acc false rest
          else None
      end
  end.

(** [int(s)] for a string, base 10, over ASCII: surrounding blanks, an
    optional sign, digits. *)
Definition int_of_string (s : string) : option Z :=
  match strip s with
  | String "-" rest => Z.opp <$> parse_digits 0 false rest
  | String "+" rest => parse_digits 0 false rest
  | t => parse_digits 0 false t
  end.

(** The builtin [int(v)]: a float is truncated towards zero, a string is
    parsed, [None], a list or a dict is a [TypeError]. *)
Definition py_int (v : pyval) : result Z :=
  match v with
  | PyInt z => Ok z
  | PyBool b => Ok (if b then 1 else 0)
  | PyFloat q => Ok (Z.quot (Qnum q) (Zpos (Qden q)))
  | PyStr s =>
      match int_of_string s with Some z => Ok z | None => Raise ValueError end
  | PyNone | PyList _ | PyDict _ => Raise TypeError
  end.

(** The builtin [str(v)]. It is exact on strings, [None], booleans and
    integers. The digits of a float and the elements of a list or dict are
    not rendered: the program passes the result only to string comparisons
    against control and mode names, which no such rendering equals. *)
Definition py_str (v : pyval) : string :=
  match v with
  | PyStr s => s
  | PyNone => "None"
  | PyBool b => if b then "True" else "False"
  | PyInt z => pretty z
  | PyFloat _ => "0.0"
  | PyList _ => "[]"
  | PyDict _ => "{}"
  end.

(** [v.get(key)]: only a dict has the method. *)
Definition py_get (v : pyval) (key : string) : result (option pyval) :=
  match v with
  | PyDict d => Ok (d !! key)
  | _ => Raise AttributeError
  end.

(** [v[key]]: a missing key is a [KeyError]; the values the program
    subscripts by a string are dicts, any other is a [TypeError]. *)
Definition py_item (v : pyval) (key : string) : result pyval :=
  match v with
  | PyDict d => match d !! key with Some x => Ok x | None => Raise KeyError end
  | _ => Raise TypeError
  end.

(** Truth value of a value, as [not v] and [v or w] test it. *)
Definition py_truthy (v : pyval) : bool :=
  match v with
  | PyNone => false
  | PyBool b => b
  | PyInt z => negb (z =? 0)
  | PyFloat q => negb (Qeq_bool q 0)
  | PyStr s => negb (String.eqb s "")
  | PyList l => match l with [] => false | _ => true end
  | PyDict d => negb (bool_decide (dom d = ∅))
  end.

(** [v == name] / [v != name] against a string literal. *)
Definition py_eq_str (v : option pyval) (name : string) : bool :=
  match v with
  | Some (PyStr s) => String.eqb s name
  | _ => false
  end.

End PythonBuiltins.

(** ** Rational-valued helpers *)

Section RationalHelpers.
Local Open Scope Q_scope.

(** [clamp] on the rational reading of floats. *)
Definition clampQ (v lo hi : Q) : Q :=
  if Qlt_le_dec v lo then lo else if Qlt_le_dec hi v then hi else v.

(** The builtin [round(x)] with one argument: to the nearest integer, a tie
    to the even one. *)
Definition py_round (x : Q) : Z :=
  let f := Qfloor x in
  match Qcompare (x - inject_Z f) (1 # 2) with
  | Lt => f
  | Gt => (f + 1)%Z
  | Eq => if Z.even f then f else (f + 1)%Z
  end.

(** The value [t] that [axis_to_trigger_0_255] computes from the raw axis
    value before clamping: the mode's normalized input. *)
Definition trigger_input (v : Q) (mode : string) : Q :=
  if String.eqb mode "minus1_to_1" then (v + 1) * 0.5
  else if String.eqb mode "zero_to_1" then v
  else if String.eqb mode "one_to_minus1" then (1 - v) * 0.5
  else (v + 1) * 0.5.

(** [axis_to_trigger_0_255]. *)
Definition axis_to_trigger_0_255 (v : Q) (mode : string) : Z :=
  let t := trigger_input v mode in
  let t := clampQ t 0 1 in
  py_round (t * 255).

(** The classification of a trigger axis by its rest value, as
    [detect_trigger_axis] does it once an axis has moved. *)
Definition trigger_mode_of_rest (r : Q) : string :=
  if Qle_bool r (-0.7) then "minus1_to_1"
  else if Qle_bool 0.7 r then "one_to_minus1"
  else "zero_to_1".

End RationalHelpers.

(** ** The input device *)

(** What the getters of a [pygame.joystick.Joystick] return between two
    calls of [pygame.event.pump()]. *)
Record joystick : Type := Joystick {
  js_axes : list Q;
  js_buttons : list bool;
  js_hats : list (Z * Z)
}.

Section Device.
Local Open Scope Z_scope.

(** [js.get_axis(i)], [js.get_button(i)], [js.get_hat(i)]: pygame raises
    [pygame.error] on an index outside the device's range. *)
Definition js_index {A : Type} (l : list A) (i : Z) : result A :=
  if i <? 0 then Raise PygameError
  else match l !! Z.to_nat i with
       | Some a => Ok a
       | None => Raise PygameError
       end.

Definition get_axis (js : joystick) (i : Z) : result Q := js_index (js_axes js) i.
Definition get_button (js : joystick) (i : Z) : result bool :=
  js_index (js_buttons js) i.
Definition get_hat (js : joystick) (i : Z) : result (Z * Z) :=
  js_index (js_hats js) i.
Definition get_numhats (js : joystick) : Z := Z.of_nat (length (js_hats js)).

(** [read_cal_button]. *)
Definition read_cal_button (js : joystick) (cal : pyval) (key : string)
  : result bool :=
  found ← py_get cal key;
  let info := default (PyDict ∅) found in
  ty ← py_get info "type";
  if negb (py_eq_str ty "button") then Ok false
  else
    index ← py_get info "index";
    idx ← py_int (default (PyInt (-1)) index);
    if idx <? 0 then Ok false
    else match get_button js idx with
         | Ok b => Ok b
         | Raise _ => Ok false
         end.

(** [read_cal_trigger]. *)
Definition read_cal_trigger (js : joystick) (cal : pyval) (key : string)
  : result Z :=
  found ← py_get cal key;
  let info := default (PyDict ∅) found in
  ty ← py_get info "type";
  if negb (py_eq_str ty "axis") then Ok 0
  else
    index ← py_get info "index";
    ai ← py_int (default (PyInt (-1)) index);
    m ← py_get info "mode";
    let mode := py_str (default (PyStr "minus1_to_1") m) in
    if ai <? 0 then Ok 0
    else match get_axis js ai with
         | Ok v => Ok (axis_to_trigger_0_255 v mode)
         | Raise _ => Ok 0
         end.

End Device.


(** ** The calibration wizard *)

(** The wizard blocks on the operator: every wait is a loop around
    [pygame.event.pump()]. The operator and the device are a script of
    events, one consumed by each pump: a frame of device state, or the
    operator's Ctrl+C, which Python raises as [KeyboardInterrupt] (not an
    [Exception], so no [except Exception] of the program catches it). The
    persisted document [config.json] is part of the world. *)
Inductive event : Type :=
  | Frame (js : joystick)
  | Interrupt.

Record world : Type := World {
  device : joystick;
  pending : list event;
  disk : option string
}.

(** A wizard computation returns, raises, or is still waiting for the
    operator when the script ends. *)
Inductive wres (A : Type) : Type :=
  | Returned (a : A) (w : world)
  | Raised (e : py_exn) (w : world)
  | Waiting (w : world).
Arguments Returned {A} a w.
Arguments Raised {A} e w.
Arguments Waiting {A} w.

Definition wizard (A : Type) : Type := world -> wres A.

Definition wret {A : Type} (a : A) : wizard A := fun w => Returned a w.

Definition wbind {A B : Type} (m : wizard A) (f : A -> wizard B) : wizard B :=
  fun w =>
    match m w with
    | Returned a w' => f a w'
    | Raised e w' => Raised e w'
    | Waiting w' => Waiting w'
    end.

Notation "x <~ m ;; k" := (wbind m (fun x => k))
  (at level 62, m at next level, right associativity).
Notation "m ;;; k" := (wbind m (fun _ => k))
  (at level 62, right associativity).

Definition lift {A : Type} (r : result A) : wizard A :=
  fun w => match r with Ok a => Returned a w | Raise e => Raised e w end.

Definition read_device : wizard joystick := fun w => Returned (device w) w.

(** [pygame.event.pump()]. *)
Definition pump : wizard unit := fun w =>
  match pending w with
  | [] => Waiting w
  | Interrupt :: evs =>
      Raised KeyboardInterrupt
             {| device := device w; pending := evs; disk := disk w |}
  | Frame js :: evs =>
      Returned tt {| device := js; pending := evs; disk := disk w |}
  end.

(** An interrupt is asynchronous: it is also delivered between two
    statements when it is the next thing to happen. Between two pumps the
    wizard only computes, so this point matters once: after the last wait
    and before the document is written. *)
Definition deliver_interrupt : wizard unit := fun w =>
  match pending w with
  | Interrupt :: evs =>
      Raised KeyboardInterrupt
             {| device := device w; pending := evs; disk := disk w |}
  | _ => Returned tt w
  end.

(** [while True: pygame.event.pump(); <body>; time.sleep(..)], where the
    body reads the device and either returns a value or goes around. *)
Fixpoint poll_events {A : Type} (body : joystick -> result (option A))
  (evs : list event) (dev : joystick) (dsk : option string) : wres A :=
  match evs with
  | [] => Waiting {| device := dev; pending := []; disk := dsk |}
  | Interrupt :: evs' =>
      Raised KeyboardInterrupt {| device := dev; pending := evs'; disk := dsk |}
  | Frame js :: evs' =>
      match body js with
      | Ok (Some a) => Returned a {| device := js; pending := evs'; disk := dsk |}
      | Ok None => poll_events body evs' js dsk
      | Raise e => Raised e {| device := js; pending := evs'; disk := dsk |}
      end
  end.

Definition poll {A : Type} (body : joystick -> result (option A)) : wizard A :=
  fun w => poll_events body (pending w) (device w) (disk w).

(** The world a computation ends in, and the computations that leave the
    persisted document alone. *)
Definition final_world {A : Type} (r : wres A) : world :=
  match r with
  | Returned _ w | Raised _ w | Waiting w => w
  end.

Definition keeps_disk {A : Type} (m : wizard A) : Prop :=
  forall w, disk (final_world (m w)) = disk w.

(** How a computation ended. *)
Definition returned {A : Type} (r : wres A) : option A :=
  match r with Returned a _ => Some a | _ => None end.

Definition raised {A : Type} (r : wres A) : option py_exn :=
  match r with Raised e _ => Some e | _ => None end.

Definition waiting {A : Type} (r : wres A) : bool :=
  match r with Waiting _ => true | _ => false end.

Section Probes.
Local Open Scope Q_scope.

(** [any_button_pressed]: the indices are in range, so the handler that
    answers [True] on an exception is not reached. *)
Definition any_button_pressed (js : joystick) : bool :=
  existsb (fun b => b) (js_buttons js).

(** [wait_for_buttons_released]. *)
Definition wait_for_buttons_released : wizard unit :=
  poll (fun js => Ok (if any_button_pressed js then None else Some tt)).

Fixpoint first_pressed (i : Z) (bs : list bool) : option Z :=
  match bs with
  | [] => None
  | b :: bs' => if b then Some i else first_pressed (i + 1)%Z bs'
  end.

(** [detect_first_button_press]. *)
Definition detect_first_button_press : wizard Z :=
  poll (fun js => Ok (first_pressed 0 (js_buttons js))).

(** [detect_hat_direction]. *)
Definition detect_hat_direction : wizard (Z * Z) :=
  poll (fun js =>
          if (get_numhats js <=? 0)%Z then Ok None
          else
            h ← get_hat js 0;
            if negb (fst h =? 0)%Z || negb (snd h =? 0)%Z then Ok (Some h)
            else Ok None).

(** [[abs(cur[i] - rest[i]) for i in range(len(cur))]]: [rest[i]] raises
    [IndexError] if the rest sample is the shorter list. *)
Fixpoint axis_deltas (cur rest : list Q) : result (list Q) :=
  match cur, rest with
  | [], _ => Ok []
  | c :: cur', r :: rest' =>
      ds ← axis_deltas cur' rest';
      Ok (Qabs (c - r) :: ds)
  | _ :: _, [] => Raise IndexError
  end.

(** [max(range(len(deltas)), key=lambda i: deltas[i])] with its value:
    the first index of a greatest delta. *)
Fixpoint best_from (i : nat) (best_i : nat) (best_d : Q) (ds : list Q)
  : nat * Q :=
  match ds with
  | [] => (best_i, best_d)
  | d :: ds' =>
      if Qlt_le_dec best_d d then best_from (S i) i d ds'
      else best_from (S i) best_i best_d ds'
  end.

Definition best_delta (ds : list Q) : option (nat * Q) :=
  match ds with
  | [] => None
  | d :: ds' => Some (best_from 1 0 d ds')
  end.

(** One round of the loop of [detect_trigger_axis] against the rest
    sample [rest]. *)
Definition trigger_axis_body (min_delta : Q) (rest : list Q) (js : joystick)
  : result (option (Z * string * Q)) :=
  deltas ← axis_deltas (js_axes js) rest;
  match best_delta deltas with
  | Some (best_i, best_d) =>
      if Qle_bool min_delta best_d then
        match rest !! best_i with
        | Some r => Ok (Some (Z.of_nat best_i, trigger_mode_of_rest r, r))
        | None => Raise IndexError
        end
      else Ok None
  | None => Ok None
  end.

(** [detect_trigger_axis]. *)
Definition detect_trigger_axis (min_delta : Q) : wizard (Z * string * Q) :=
  pump ;;;
  js <~ read_device ;;
  poll (trigger_axis_body min_delta (js_axes js)).

(** [wait_for_axis_near]: a failing [get_axis] goes around the loop. *)
Definition wait_for_axis_near (axis_index : Z) (rest_value eps : Q)
  : wizard unit :=
  poll (fun js =>
          match get_axis js axis_index with
          | Raise _ => Ok None
          | Ok v =>
              if Qle_bool (Qabs (v - rest_value)) eps
                 && negb (any_button_pressed js)
              then Ok (Some tt) else Ok None
          end).

(** One round of the loop of [detect_axis_by_moving]. *)
Definition moving_axis_body (min_delta : Q) (rest : list Q) (js : joystick)
  : result (option (Z * Z * Q)) :=
  deltas ← axis_deltas (js_axes js) rest;
  match best_delta deltas with
  | Some (best_i, best_d) =>
      if Qle_bool min_delta best_d then
        match js_axes js !! best_i, rest !! best_i with
        | Some c, Some r =>
            let sign := if Qlt_le_dec 0 (c - r) then 1%Z else (-1)%Z in
            Ok (Some (Z.of_nat best_i, sign, r))
        | _, _ => Raise IndexError
        end
      else Ok None
  | None => Ok None
  end.

(** [detect_axis_by_moving]. *)
Definition detect_axis_by_moving (min_delta : Q) : wizard (Z * Z * Q) :=
  pump ;;;
  js <~ read_device ;;
  poll (moving_axis_body min_delta (js_axes js)).

(** The dict literals the wizard stores. *)
Definition stick_entry (axis_i sign : Z) (rest_val : Q) : pyval :=
  PyDict (<["axis" := PyInt axis_i]>
          (<["sign" := PyInt sign]> (<["rest" := PyFloat rest_val]> ∅))).

Definition button_binding (idx : Z) : pyval :=
  PyDict (<["type" := PyStr "button"]> (<["index" := PyInt idx]> ∅)).

Definition hat_binding (hat_index : pyval) (hx hy : Z) : pyval :=
  PyDict (<["type" := PyStr "hat_dir"]>
          (<["hat_index" := hat_index]>
           (<["hx" := PyInt hx]> (<["hy" := PyInt hy]> ∅)))).

Definition axis_binding (axis_i : Z) (mode : string) (rest_val : Q) : pyval :=
  PyDict (<["type" := PyStr "axis"]>
          (<["index" := PyInt axis_i]>
           (<["mode" := PyStr mode]> (<["rest" := PyFloat rest_val]> ∅)))).

Definition none_binding : pyval := PyDict (<["type" := PyStr "none"]> ∅).

(** The loop over [prompts] in [calibrate_sticks]. *)
Fixpoint probe_sticks (prompts : list string) (stick_axes : gmap string pyval)
  : wizard (gmap string pyval) :=
  match prompts with
  | [] => wret stick_axes
  | key :: prompts' =>
      r <~ detect_axis_by_moving 0.45 ;;
      let '(axis_i, sign, rest_val) := r in
      let stick_axes := <[key := stick_entry axis_i sign rest_val]> stick_axes in
      wait_for_axis_near axis_i rest_val 0.20 ;;;
      probe_sticks prompts' stick_axes
  end.

(** [int(stick_axes[key][field])]. *)
Definition stick_field (stick_axes : gmap string pyval) (key field : string)
  : result Z :=
  e ← py_item (PyDict stick_axes) key;
  v ← py_item e field;
  py_int v.

(** [calibrate_sticks]: the configuration object and the calibration dict
    are mutated in place in the source; here the updated ones are
    returned. *)
Definition calibrate_sticks (cfg cal : gmap string pyval)
  : wizard (gmap string pyval * gmap string pyval) :=
  wait_for_buttons_released ;;;
  stick_axes <~ probe_sticks ["lx"; "ly"; "rx"; "ry"] ∅ ;;
  lx <~ lift (stick_field stick_axes "lx" "axis") ;;
  let cfg := <["left_x_axis" := PyInt lx]> cfg in
  ly <~ lift (stick_field stick_axes "ly" "axis") ;;
  let cfg := <["left_y_axis" := PyInt ly]> cfg in
  rx <~ lift (stick_field stick_axes "rx" "axis") ;;
  let cfg := <["right_x_axis" := PyInt rx]> cfg in
  ry <~ lift (stick_field stick_axes "ry" "axis") ;;
  let cfg := <["right_y_axis" := PyInt ry]> cfg in
  ly_sign <~ lift (stick_field stick_axes "ly" "sign") ;;
  let cfg := <["invert_left_y" := PyBool (0 <? ly_sign)%Z]> cfg in
  ry_sign <~ lift (stick_field stick_axes "ry" "sign") ;;
  let cfg := <["invert_right_y" := PyBool (0 <? ry_sign)%Z]> cfg in
  wret (cfg, <["stick_axes" := PyDict stick_axes]> cal).

(** The tables of [calibrate_controller]. *)
Definition steps : list string :=
  ["square_x"; "cross_a"; "circle_b"; "triangle_y";
   "dpad_up"; "dpad_left"; "dpad_down"; "dpad_right";
   "l1_lb"; "l2_lt"; "r1_rb"; "r2_rt";
   "start"; "select_back"; "l3"; "r3"].

Definition button_keys : list string :=
  ["square_x"; "cross_a"; "circle_b"; "triangle_y";
   "l1_lb"; "r1_rb"; "start"; "select_back"; "l3"; "r3"].

Definition dpad_keys : list string :=
  ["dpad_up"; "dpad_left"; "dpad_down"; "dpad_right"].

Definition trigger_keys : list string := ["l2_lt"; "r2_rt"].

(** The capture of a button and the wait for its release. *)
Definition probe_button (key : string) (cal : gmap string pyval)
  : wizard (gmap string pyval) :=
  idx <~ detect_first_button_press ;;
  let cal := <[key := button_binding idx]> cal in
  wait_for_buttons_released ;;;
  wret cal.

(** The body of the loop over [steps] in [calibrate_controller]. *)
Definition calibrate_step (key : string) (cal : gmap string pyval)
  : wizard (gmap string pyval) :=
  wait_for_buttons_released ;;;
  if bool_decide (key ∈ button_keys) then probe_button key cal
  else if bool_decide (key ∈ dpad_keys) then
    dpad_mode <~ lift (py_item (PyDict cal) "dpad_mode") ;;
    if py_eq_str (Some dpad_mode) "hat" then
      h <~ detect_hat_direction ;;
      hat_index <~ lift (py_item (PyDict cal) "hat_index") ;;
      let cal := <[key := hat_binding hat_index (fst h) (snd h)]> cal in
      poll (fun js =>
              hi ← py_item (PyDict cal) "hat_index";
              i ← py_int hi;
              h2 ← get_hat js i;
              if (fst h2 =? 0)%Z && (snd h2 =? 0)%Z
                 && negb (any_button_pressed js)
              then Ok (Some tt) else Ok None) ;;;
      wret cal
    else probe_button key cal
  else if bool_decide (key ∈ trigger_keys) then
    r <~ detect_trigger_axis 0.35 ;;
    let '(axis_i, mode, rest_val) := r in
    let cal := <[key := axis_binding axis_i mode rest_val]> cal in
    wait_for_axis_near axis_i rest_val 0.18 ;;;
    wret cal
  else wret (<[key := none_binding]> cal).

Fixpoint run_steps (keys : list string) (cal : gmap string pyval)
  : wizard (gmap string pyval) :=
  match keys with
  | [] => wret cal
  | key :: keys' =>
      cal <~ calibrate_step key cal ;;
      run_steps keys' cal
  end.

End Probes.

(** Every binding the completed wizard is to hold. *)
Definition complete_map (cal : gmap string pyval) : Prop :=
  (forall key, key ∈ steps -> is_Some (cal !! key)) /\
  is_Some (cal !! "stick_axes") /\
  is_Some (cal !! "dpad_mode") /\
  is_Some (cal !! "hat_index").

(** ** Persistence *)

Section Persistence.

(** [json.dump(cfg.__dict__, f, indent=2)] and [json.loads]: the text of a
    configuration, and the value of a text or nothing when it is not valid
    JSON. Both belong to the [json] module and are parameters here. *)
Context (json_dumps : gmap string pyval -> string)
        (json_loads : string -> option pyval).

(** [save_config(CONFIG_PATH, cfg)] as a wizard step: the document is
    replaced by the text of the whole configuration. *)
Definition save_config (cfg : gmap string pyval) : wizard unit := fun w =>
  Returned tt {| device := device w; pending := pending w;
                 disk := Some (json_dumps cfg) |}.

(** [calibrate_controller]. *)
Definition calibrate_controller (cfg : gmap string pyval)
  : wizard (gmap string pyval) :=
  js <~ read_device ;;
  let cal : gmap string pyval :=
    <["hat_index" := PyInt (if (0 <? get_numhats js)%Z then 0 else -1)]> ∅ in
  let cal :=
    <["dpad_mode" :=
        PyStr (if (0 <? get_numhats js)%Z then "hat" else "buttons")]> cal in
  wait_for_buttons_released ;;;
  r <~ calibrate_sticks cfg cal ;;
  let '(cfg, cal) := r in
  cal <~ run_steps steps cal ;;
  let cfg := <["calibration" := PyDict cal]> cfg in
  let cfg := <["calibrated" := PyBool true]> cfg in
  deliver_interrupt ;;;
  save_config cfg ;;;
  wret cfg.

(** The calibration phase of [main]: the wizard runs when asked for or when
    the configuration is not calibrated; an interrupt is caught, reported
    and ends the program ([None]); a calibrated configuration goes on to the
    loop. *)
Definition main_calibration (recalibrate : bool) (cfg : gmap string pyval)
  : wizard (option (gmap string pyval)) :=
  calibrated <~ lift (match cfg !! "calibrated" with
                      | Some v => Ok v
                      | None => Raise AttributeError
                      end) ;;
  if recalibrate || negb (py_truthy calibrated) then
    fun w =>
      match calibrate_controller cfg w with
      | Returned cfg' w' => Returned (Some cfg') w'
      | Raised KeyboardInterrupt w' => Returned None w'
      | Raised e w' => Raised e w'
      | Waiting w' => Waiting w'
      end
  else wret (Some cfg).

(** [SharedState]: the live configuration and the text last known to be
    on disk. The lock makes each method body atomic; each is one function
    here. *)
Record SharedState : Type := {
  cfg : gmap string pyval;
  last_saved_cfg_json : option string
}.

(** [hasattr(self.cfg, k)] over the data attributes of the configuration
    (its [__dict__], which the dataclass fills with every field); the names
    Python defines on every object, such as [__class__], are not
    modelled. *)
Definition hasattr (c : gmap string pyval) (k : string) : bool :=
  bool_decide (is_Some (c !! k)).

(** [for k, v in items: if hasattr(self.cfg, k): setattr(self.cfg, k, v)]. *)
Definition apply_fields (c : gmap string pyval) (items : list (string * pyval))
  : gmap string pyval :=
  foldl (fun c kv => if hasattr c kv.1 then <[kv.1 := kv.2]> c else c) c items.


(** [SharedState.maybe_reload_from_disk], against the content [dsk] of the
    document ([None]: it cannot be opened). A valid text that is not an
    object has no [items]. *)
Definition maybe_reload_from_disk (st : SharedState) (dsk : option string)
  : result SharedState :=
  match dsk with
  | None => Ok st
  | Some txt =>
      if bool_decide (Some txt = last_saved_cfg_json st) then Ok st
      else match json_loads txt with
           | None => Ok st
           | Some (PyDict data) =>
               Ok {| cfg := apply_fields (cfg st) (map_to_list data);
                     last_saved_cfg_json := Some txt |}
           | Some _ => Raise AttributeError
           end
  end.


End Persistence.

(** ** Keyboard chords and pointer emission of the loop *)

Inductive vkey : Type := VK_F8 | VK_F11 | VK_F12.

#[global] Instance vkey_eq_dec : EqDecision vkey.
Proof. solve_decision. Defined.

(** The loop-owned flags of the chord detection. *)
Record chord_state : Type := {
  f8_combo_armed : bool;
  prev_l3 : bool;
  f12_combo_armed : bool
}.

Definition chord_init : chord_state :=
  {| f8_combo_armed := false; prev_l3 := false; f12_combo_armed := false |}.

(** What [read_cal_button] answered this tick for the controls the chords
    use. *)
Record held : Type := {
  l1 : bool;
  r3 : bool;
  start : bool;
  l3 : bool
}.

(** The chord block of one tick of [controller_loop]: L1+R3 taps F8,
    L3 taps F11, L1+Start taps F12. The taps are listed in the order they
    are sent. *)
Definition chord_step (st : chord_state) (h : held) : chord_state * list vkey :=
  let combo_f8_now := l1 h && r3 h in
  let '(taps8, armed8) :=
    if combo_f8_now && negb (f8_combo_armed st) then ([VK_F8], true)
    else ([], f8_combo_armed st) in
  let armed8 := if negb combo_f8_now then false else armed8 in
  let taps11 := if l3 h && negb (prev_l3 st) then [VK_F11] else [] in
  let combo_f12_now := l1 h && start h in
  let '(taps12, armed12) :=
    if combo_f12_now && negb (f12_combo_armed st) then ([VK_F12], true)
    else ([], f12_combo_armed st) in
  let armed12 := if negb combo_f12_now then false else armed12 in
  ({| f8_combo_armed := armed8; prev_l3 := l3 h; f12_combo_armed := armed12 |},
   taps8 ++ taps11 ++ taps12).

(** The taps of each tick of a run of the loop. *)
Fixpoint chord_run (st : chord_state) (ticks : list held) : list (list vkey) :=
  match ticks with
  | [] => []
  | h :: ticks' =>
      let '(st', taps) := chord_step st h in
      taps :: chord_run st' ticks'
  end.

(** The conditions the chords watch, and the state of the controls before
    the first tick (the loop starts with every flag [False]). *)
Definition combo_f8 (h : held) : bool := l1 h && r3 h.
Definition combo_f12 (h : held) : bool := l1 h && start h.
Definition released : held :=
  {| l1 := false; r3 := false; start := false; l3 := false |}.

(** The controls at the tick before tick [i] of a run. *)
Definition previous (ticks : list held) (i : nat) : held :=
  match i with
  | O => released
  | S j => default released (ticks !! j)
  end.

(** A condition rises at a tick when it holds there and did not hold at the
    tick before. *)
Definition rising (prev cur : bool) : bool := cur && negb prev.

(** The taps of a tick, from the controls at the tick before and at it. *)
Definition taps_of (prev cur : held) : list vkey :=
  (if rising (combo_f8 prev) (combo_f8 cur) then [VK_F8] else [])
  ++ (if rising (l3 prev) (l3 cur) then [VK_F11] else [])
  ++ (if rising (combo_f12 prev) (combo_f12 cur) then [VK_F12] else []).

Section Pointer.
Local Open Scope Q_scope.

(** [mouse_move_relative]: the relative moves handed to [SendInput];
    a zero move sends nothing. *)
Definition mouse_move_relative (dx dy : Z) : list (Z * Z) :=
  if (dx =? 0)%Z && (dy =? 0)%Z then [] else [(dx, dy)].

Record pointer_state : Type := {
  mouse_rem_x : Q;
  mouse_rem_y : Q
}.

Definition pointer_init : pointer_state :=
  {| mouse_rem_x := 0; mouse_rem_y := 0 |}.

(** The end of the pointer block of an active tick: from the curved stick
    vector [(mx, my)] to the move sent and the remainder kept. *)
Definition pointer_emit (mouse_speed_px_per_sec dt : Q)
  (st : pointer_state) (mx my : Q) : pointer_state * list (Z * Z) :=
  let mouse_dx := mx * mouse_speed_px_per_sec * dt in
  let mouse_dy := - my * mouse_speed_px_per_sec * dt in
  let rem_x := mouse_rem_x st + mouse_dx in
  let rem_y := mouse_rem_y st + mouse_dy in
  let send_dx := py_round rem_x in
  let send_dy := py_round rem_y in
  ({| mouse_rem_x := rem_x - inject_Z send_dx;
      mouse_rem_y := rem_y - inject_Z send_dy |},
   mouse_move_relative send_dx send_dy).

(** A run of active ticks: the final remainder and every move sent. *)
Fixpoint pointer_run (mouse_speed_px_per_sec dt : Q)
  (st : pointer_state) (ticks : list (Q * Q)) : pointer_state * list (Z * Z) :=
  match ticks with
  | [] => (st, [])
  | (mx, my) :: ticks' =>
      let '(st', sent) := pointer_emit mouse_speed_px_per_sec dt st mx my in
      let '(st'', sent') := pointer_run mouse_speed_px_per_sec dt st' ticks' in
      (st'', sent ++ sent')
  end.

Definition sum_dx (moves : list (Z * Z)) : Z :=
  foldr (fun m acc => (m.1 + acc)%Z) 0%Z moves.

Definition sum_dy (moves : list (Z * Z)) : Z :=
  foldr (fun m acc => (m.2 + acc)%Z) 0%Z moves.

End Pointer.

(** ** Real-valued helpers of the transform loop *)

Section RealHelpers.
Local Open Scope R_scope.

(** [clamp], on floats read as reals. *)
Definition clamp (v lo hi : R) : R :=
  if Rlt_dec v lo then lo else if Rgt_dec v hi then hi else v.

(** [math.hypot]. *)
Definition hypot (x y : R) : R := sqrt (x * x + y * y).

(** Float division [a / b]: Python raises on a zero divisor. *)
Definition float_div (a b : R) : result R :=
  if Req_dec_T b 0 then Raise ZeroDivisionError else Ok (a / b).

(** [apply_deadzone]: the radial deadzone. The test
    [mag < dz or mag == 0.0] short-circuits from the left. *)
Definition apply_deadzone (x y dz : R) : result (R * R) :=
  let mag := hypot x y in
  if Rlt_dec mag dz then Ok (0, 0)
  else if Req_dec_T mag 0 then Ok (0, 0)
  else
    new_mag ← float_div (mag - dz) (1 - dz);
    let new_mag := clamp new_mag 0 1 in
    scale ← float_div new_mag mag;
    Ok (x * scale, y * scale).

(** The factor [scale] the rescale branch of [apply_deadzone] multiplies
    both components by. *)
Definition deadzone_scale (x y dz : R) : R :=
  clamp ((hypot x y - dz) / (1 - dz)) 0 1 / hypot x y.





End RealHelpers.

(** ** The movement part of a tick *)

Section Movement.
Local Open Scope R_scope.









End Movement.

(** ** Quantization, repeat timers, directional pad and poll rate *)

Section LoopDiscrete.
Local Open Scope Q_scope.

(** [to_short_axis]. *)
Definition to_short_axis (v : Q) : Z :=
  let v := clampQ v (-1) 1 in
  py_round (v * 32767).




Definition ry_threshold : Q := 0.65.

(** What the repeater reads in a tick: the clock, L1, R1 and the right
    stick's Y (sign-normalised, before the deadzone). *)
Record repeat_input : Type := {
  now : Q;
  rp_l1 : bool;
  rp_r1 : bool;
  rp_ry : Q
}.




(** The stick is held up (down) with both modifiers at a tick. *)
Definition held_up (i : repeat_input) : bool :=
  rp_l1 i && rp_r1 i && Qle_bool ry_threshold (rp_ry i).

Definition held_down (i : repeat_input) : bool :=
  rp_l1 i && rp_r1 i && Qle_bool (rp_ry i) (- ry_threshold).

(** The four directions of the virtual pad. *)
Inductive dpad : Type := DPAD_UP | DPAD_DOWN | DPAD_LEFT | DPAD_RIGHT.

(** [int(v) if isinstance(v, int) else 0] for the hat index: a Python bool
    is an [int]. *)
Definition hat_index_of (v : pyval) : Z :=
  match v with
  | PyInt z => z
  | PyBool b => if b then 1%Z else 0%Z
  | _ => 0%Z
  end.

(** The hat read of the loop: any failure reads as centred. *)
Definition read_hat (js : joystick) (hat_index : Z) : Z * Z :=
  if (0 <? get_numhats js)%Z && (0 <=? hat_index)%Z then
    match get_hat js hat_index with
    | Ok h => h
    | Raise _ => (0, 0)%Z
    end
  else (0, 0)%Z.

(** The directional-pad block of one tick: the four directions are released
    and the active ones pressed again; the result lists the directions
    pressed, in the order they are pressed. *)
Definition dpad_pressed (js : joystick) (cal : pyval) : result (list dpad) :=
  m ← py_get cal "dpad_mode";
  if py_eq_str (Some (default (PyStr "hat") m)) "hat" then
    hi ← py_get cal "hat_index";
    let hat_index := hat_index_of (default (PyInt 0) hi) in
    let h := read_hat js hat_index in
    Ok ((if (h.2 =? 1)%Z then [DPAD_UP]
         else if (h.2 =? -1)%Z then [DPAD_DOWN] else [])
        ++ (if (h.1 =? -1)%Z then [DPAD_LEFT]
            else if (h.1 =? 1)%Z then [DPAD_RIGHT] else []))
  else
    b_up ← read_cal_button js cal "dpad_up";
    b_down ← read_cal_button js cal "dpad_down";
    b_left ← read_cal_button js cal "dpad_left";
    b_right ← read_cal_button js cal "dpad_right";
    Ok ((if b_up : bool then [DPAD_UP] else [])
        ++ (if b_down : bool then [DPAD_DOWN] else [])
        ++ (if b_left : bool then [DPAD_LEFT] else [])
        ++ (if b_right : bool then [DPAD_RIGHT] else [])).


End LoopDiscrete.

(** ** Concrete instances *)

(** [Config()]: the dataclass defaults. *)
Definition default_config : gmap string pyval :=
  list_to_map
    [("rotation_speed_deg_per_sec", PyFloat 180);
     ("invert_rotation", PyBool true);
     ("deadzone_left", PyFloat 0.12);
     ("deadzone_right", PyFloat 0.1);
     ("wrap_yaw", PyBool true);
     ("invert_left_y", PyBool false);
     ("invert_right_y", PyBool false);
     ("output_smoothing", PyFloat 0);
     ("joystick_index", PyInt 0);
     ("left_x_axis", PyInt 0);
     ("left_y_axis", PyInt 1);
     ("right_x_axis", PyInt 2);
     ("right_y_axis", PyInt 3);
     ("poll_hz", PyInt 240);
     ("mouse_enabled", PyBool true);
     ("mouse_speed_px_per_sec", PyFloat 1200);
     ("mouse_deadzone", PyFloat 0.18);
     ("mouse_accel", PyFloat 1.35);
     ("mouse_invert_y", PyBool false);
     ("mouse_activation_mode", PyStr "always");
     ("mouse_hold_key", PyStr "r3");
     ("calibrated", PyBool false);
     ("calibration", PyDict ∅)].

Definition quote : string := String (ascii_of_nat 34) EmptyString.

(** A stand-in for [json.dump], to run the model on concrete inputs: the
    attributes with the text [py_str] gives their values. Every theorem
    below is proved for all serialisers and parsers; the stand-ins only
    instantiate them. *)
Definition demo_dumps (c : gmap string pyval) : string :=
  "{" +:+ String.concat ", "
            ((fun kv => quote +:+ kv.1 +:+ quote +:+ ": " +:+ py_str kv.2)
               <$> map_to_list c)
      +:+ "}".

(** An edited document: one known field, one unknown. *)
Definition edited_doc : string :=
  "{" +:+ quote +:+ "wrap_yaw" +:+ quote +:+ ": false, "
      +:+ quote +:+ "bogus" +:+ quote +:+ ": 1}".

(** A stand-in for [json.loads]: it answers as [json.loads] does on the
    documents of the examples, and treats every other text as malformed. *)
Definition demo_loads (txt : string) : option pyval :=
  if String.eqb txt edited_doc then
    Some (PyDict (<["wrap_yaw" := PyBool false]> (<["bogus" := PyInt 1]> ∅)))
  else if String.eqb txt (demo_dumps (<["wrap_yaw" := PyBool false]> default_config))
  then Some (PyDict (<["wrap_yaw" := PyBool false]> default_config))
  else if String.eqb txt "[1]" then Some (PyList [PyInt 1])
  else None.

(** The store as [main] leaves it before [mark_saved], and after. *)
Definition fresh_state : SharedState :=
  {| cfg := default_config; last_saved_cfg_json := None |}.

(** A pad with two buttons held. *)
Definition pad_demo : joystick :=
  {| js_axes := [0; 0; 0; 0; -1; -1]%Q;
     js_buttons := [true; true; false];
     js_hats := [(0, 0)%Z] |}.

(** Four ticks of held controls. *)
Definition chord_demo : list held :=
  [ {| l1 := true; r3 := true; start := false; l3 := false |};
    {| l1 := true; r3 := true; start := false; l3 := true |};
    {| l1 := true; r3 := false; start := false; l3 := true |};
    {| l1 := true; r3 := true; start := true; l3 := false |} ].

(** A pad at rest: four stick axes, two triggers resting at -1, twelve
    buttons, one hat. *)
Definition pad_rest : joystick :=
  {| js_axes := [0; 0; 0; 0; -1; -1]%Q;
     js_buttons := replicate 12 false;
     js_hats := [(0, 0)%Z] |}.

Definition with_axis (i : nat) (v : Q) (js : joystick) : joystick :=
  {| js_axes := <[i := v]> (js_axes js);
     js_buttons := js_buttons js; js_hats := js_hats js |}.

Definition with_button (i : nat) (js : joystick) : joystick :=
  {| js_axes := js_axes js;
     js_buttons := <[i := true]> (js_buttons js); js_hats := js_hats js |}.

Definition with_hat (h : Z * Z) (js : joystick) : joystick :=
  {| js_axes := js_axes js; js_buttons := js_buttons js; js_hats := [h] |}.

(** What an operator who follows the prompts makes the device report:
    rest, the control asked for, rest again (an axis probe samples the rest
    position first). *)
Definition act (js : joystick) : list event :=
  [Frame pad_rest; Frame js; Frame pad_rest].

Definition act_axis (i : nat) (v : Q) : list event :=
  [Frame pad_rest; Frame pad_rest; Frame (with_axis i v pad_rest);
   Frame pad_rest].

Definition operator_script : list event :=
  [Frame pad_rest; Frame pad_rest]
  ++ tail (act_axis 0 (-1)) ++ tail (act_axis 1 (-1))
  ++ tail (act_axis 2 (-1)) ++ tail (act_axis 3 (-1))
  ++ act (with_button 0 pad_rest) ++ act (with_button 1 pad_rest)
  ++ act (with_button 2 pad_rest) ++ act (with_button 3 pad_rest)
  ++ act (with_hat (0, 1)%Z pad_rest) ++ act (with_hat (-1, 0)%Z pad_rest)
  ++ act (with_hat (0, -1)%Z pad_rest) ++ act (with_hat (1, 0)%Z pad_rest)
  ++ act (with_button 4 pad_rest) ++ act_axis 4 1
  ++ act (with_button 5 pad_rest) ++ act_axis 5 1
  ++ act (with_button 6 pad_rest) ++ act (with_button 7 pad_rest)
  ++ act (with_button 8 pad_rest) ++ act (with_button 9 pad_rest).

(** The same operator pressing Ctrl+C after [n] events. *)
Definition interrupted_script (n : nat) : list event :=
  take n operator_script ++ [Interrupt].

Definition start_world (evs : list event) : world :=
  {| device := pad_rest; pending := evs; disk := Some "old" |}.


(** ** Loading and copying the configuration *)

Section Loading.

Context (json_dumps : gmap string pyval -> string)
        (json_loads : string -> option pyval).

(** [load_config(CONFIG_PATH)] against the content [dsk] of the document
    ([None]: there is no such file): the configuration, and the content of
    the document afterwards. A missing document is created from the
    defaults; a text that is not valid JSON gives the defaults and is left
    alone; an object is overlaid on the defaults, attribute by attribute;
    a valid text that is not an object has no [items]. A document that
    exists and cannot be read is not modelled. *)
Definition load_config (dsk : option string)
  : result (gmap string pyval * option string) :=
  match dsk with
  | None => Ok (default_config, Some (json_dumps default_config))
  | Some txt =>
      match json_loads txt with
      | None => Ok (default_config, dsk)
      | Some (PyDict data) =>
          Ok (apply_fields default_config (map_to_list data), dsk)
      | Some _ => Raise AttributeError
      end
  end.

(** [SharedState.snapshot]: a fresh [Config()] on which every attribute of
    the live configuration is set, without a [hasattr] guard. *)
Definition snapshot (st : SharedState) : gmap string pyval :=
  foldl (fun snap kv => <[kv.1 := kv.2]> snap) default_config
        (map_to_list (cfg st)).

End Loading.

(** A stand-in for [json.loads] that knows the text of one configuration
    and treats every other text as malformed. *)
Definition loads_only (c : gmap string pyval) (txt : string) : option pyval :=
  if String.eqb txt (demo_dumps c) then Some (PyDict c) else None.

(** The run of the wizard with the operator who follows every prompt: the
    configuration it returns and the world it leaves. *)
Definition calibrated_run : wres (gmap string pyval) :=
  calibrate_controller demo_dumps default_config (start_world operator_script).

Definition calibrated_config : gmap string pyval :=
  default ∅ (returned calibrated_run).

(** A configuration object: it holds the attributes of [Config()], no
    more, no less. *)
Definition config_shaped (c : gmap string pyval) : Prop :=
  forall k, is_Some (c !! k) <-> is_Some (default_config !! k).

(** The attributes [calibrate_sticks] and [calibrate_controller] assign. *)
Definition wizard_attrs : list string :=
  ["left_x_axis"; "left_y_axis"; "right_x_axis"; "right_y_axis";
   "invert_left_y"; "invert_right_y"; "calibration"; "calibrated"].

(** * Properties *)

Section RealProperties.
Local Open Scope R_scope.

Lemma hypot_nonneg x y : 0 <= hypot x y.
Proof. apply sqrt_pos. Qed.

Lemma hypot_eq_0 x y : hypot x y = 0 -> x = 0 /\ y = 0.
Proof.
  unfold hypot. intros H.
  assert (Hs : x * x + y * y = 0).
  { apply sqrt_eq_0; [nra | exact H]. }
  split; nra.
Qed.

Lemma hypot_scale s x y : 0 <= s -> hypot (x * s) (y * s) = s * hypot x y.
Proof.
  intros Hs. unfold hypot.
  replace (x * s * (x * s) + y * s * (y * s)) with (Rsqr s * (x * x + y * y))
    by (unfold Rsqr; ring).
  rewrite sqrt_mult; [| apply Rle_0_sqr | nra].
  now rewrite sqrt_Rsqr.
Qed.

Lemma clamp_bounds v lo hi : lo <= hi -> lo <= clamp v lo hi <= hi.
Proof.
  intros H. unfold clamp.
  destruct (Rlt_dec v lo); [lra |].
  destruct (Rgt_dec v hi); lra.
Qed.


(** The two early exits and the rescale branch of [apply_deadzone]. *)
Lemma apply_deadzone_below x y dz :
  hypot x y < dz -> apply_deadzone x y dz = Ok (0, 0).
Proof.
  intros H. unfold apply_deadzone.
  destruct (Rlt_dec (hypot x y) dz); [reflexivity | contradiction].
Qed.

Lemma apply_deadzone_zero_mag x y dz :
  hypot x y = 0 -> apply_deadzone x y dz = Ok (0, 0).
Proof.
  intros H. unfold apply_deadzone.
  destruct (Rlt_dec (hypot x y) dz); [reflexivity |].
  destruct (Req_dec_T (hypot x y) 0); [reflexivity | contradiction].
Qed.

Lemma apply_deadzone_rescale x y dz :
  dz < 1 -> dz <= hypot x y -> hypot x y <> 0 ->
  apply_deadzone x y dz
  = Ok (x * deadzone_scale x y dz, y * deadzone_scale x y dz).
Proof.
  intros Hdz Hge Hne. unfold apply_deadzone, deadzone_scale.
  destruct (Rlt_dec (hypot x y) dz); [lra |].
  destruct (Req_dec_T (hypot x y) 0); [contradiction |].
  unfold float_div.
  destruct (Req_dec_T (1 - dz) 0); [lra |]. cbn.
  destruct (Req_dec_T (hypot x y) 0); [contradiction |]. reflexivity.
Qed.

Lemma deadzone_scale_nonneg x y dz :
  dz < 1 -> 0 <= deadzone_scale x y dz.
Proof.
  intros Hdz. unfold deadzone_scale.
  pose proof (clamp_bounds ((hypot x y - dz) / (1 - dz)) 0 1 ltac:(lra)).
  pose proof (hypot_nonneg x y).
  destruct (Req_dec_T (hypot x y) 0) as [E | E].
  - rewrite E. unfold Rdiv. rewrite Rinv_0. lra.
  - apply Rle_mult_inv_pos; lra.
Qed.

Lemma deadzone_scale_mag x y dz :
  dz < 1 -> hypot x y <> 0 ->
  hypot (x * deadzone_scale x y dz) (y * deadzone_scale x y dz)
  = clamp ((hypot x y - dz) / (1 - dz)) 0 1.
Proof.
  intros Hdz Hne.
  rewrite hypot_scale by (apply deadzone_scale_nonneg; lra).
  unfold deadzone_scale. field. exact Hne.
Qed.


Lemma hypot_axis x : 0 <= x -> hypot x 0 = x.
Proof.
  intros Hx. unfold hypot.
  replace (x * x + 0 * 0) with (Rsqr x) by (unfold Rsqr; ring).
  now apply sqrt_Rsqr.
Qed.



(** C9. [apply_deadzone] returns a value (raises no [ZeroDivisionError])
    for every radius in [0,1) and every input; an input of magnitude zero
    leaves through the early exit, whatever the radius (so the division by
    the magnitude is never reached with a zero divisor, the case of radius 0
    and input (0,0) included); and the output magnitude is at most 1 for an
    input of magnitude at most 1. *)
Theorem apply_deadzone_total (dz x y : R) :
  0 <= dz < 1 ->
  (exists ox oy, apply_deadzone x y dz = Ok (ox, oy) /\
     (hypot x y <= 1 -> hypot ox oy <= 1)) /\
  (hypot x y = 0 -> forall dz', apply_deadzone x y dz' = Ok (0, 0)) /\
  apply_deadzone 0 0 0 = Ok (0, 0).
Proof.
  intros [Hlo Hhi].
  assert (H00 : hypot 0 0 = 0) by (apply hypot_axis; lra).
  repeat split.
  - destruct (Rlt_dec (hypot x y) dz) as [Hlt | Hge].
    { exists 0, 0. split; [now apply apply_deadzone_below |].
      rewrite H00. lra. }
    destruct (Req_dec_T (hypot x y) 0) as [Hz | Hmag].
    { exists 0, 0. split; [now apply apply_deadzone_zero_mag |].
      rewrite H00. lra. }
    exists (x * deadzone_scale x y dz), (y * deadzone_scale x y dz). split.
    + apply apply_deadzone_rescale; lra.
    + intros _. rewrite deadzone_scale_mag by lra.
      apply clamp_bounds. lra.
  - intros Hz dz'. now apply apply_deadzone_zero_mag.
  - now apply apply_deadzone_zero_mag.
Qed.

Lemma apply_deadzone_total_witness :
  exists ox oy, apply_deadzone 0.3 0.4 0.12 = Ok (ox, oy) /\
    (hypot 0.3 0.4 <= 1 -> hypot ox oy <= 1).
Proof.
  apply (apply_deadzone_total 0.12 0.3 0.4). lra.
Defined.

(** The model does raise where Python does: radius 1 and an input on the
    unit circle divide by [1.0 - dz = 0]. *)
Example apply_deadzone_radius_one :
  apply_deadzone 1 0 1 = Raise ZeroDivisionError.
Proof.
  assert (Hm : hypot 1 0 = 1) by (apply hypot_axis; lra).
  unfold apply_deadzone. rewrite Hm.
  destruct (Rlt_dec 1 1); [lra |].
  destruct (Req_dec_T 1 0); [lra |].
  unfold float_div. destruct (Req_dec_T (1 - 1) 0); [reflexivity | lra].
Qed.

(** *** Yaw integration *)








End RealProperties.

(** ** Rounding, trigger normalisation and pointer remainder *)

Section RationalProperties.
Local Open Scope Q_scope.

Lemma py_round_cases x :
  let f := Qfloor x in
  (x - inject_Z f < 1 # 2 /\ py_round x = f) \/
  (x - inject_Z f == 1 # 2 /\ (py_round x = f \/ py_round x = (f + 1)%Z)) \/
  (1 # 2 < x - inject_Z f /\ py_round x = (f + 1)%Z).
Proof.
  cbv zeta. unfold py_round.
  destruct (Qcompare_spec (x - inject_Z (Qfloor x)) (1 # 2)) as [E | L | G].
  - right; left. split; [exact E |]. destruct (Z.even (Qfloor x)); auto.
  - left. auto.
  - right; right. auto.
Qed.

Lemma py_round_error x : Qabs (x - inject_Z (py_round x)) <= 1 # 2.
Proof.
  pose proof (Qfloor_le x) as Hl. pose proof (Qlt_floor x) as Hu.
  rewrite inject_Z_plus in Hu. change (inject_Z 1) with 1 in Hu.
  apply Qabs_Qle_condition.
  destruct (py_round_cases x) as [[H ->] | [[H [-> | ->]] | [H ->]]];
    rewrite ?inject_Z_plus; change (inject_Z 1) with 1; split; lra.
Qed.

Lemma py_round_floor x : (Qfloor x <= py_round x <= Qfloor x + 1)%Z.
Proof.
  destruct (py_round_cases x) as [[_ ->] | [[_ [-> | ->]] | [_ ->]]]; lia.
Qed.

Lemma py_round_mono x y : x <= y -> (py_round x <= py_round y)%Z.
Proof.
  intros Hxy.
  pose proof (Qfloor_resp_le _ _ Hxy) as Hf.
  destruct (Z.eq_dec (Qfloor x) (Qfloor y)) as [E | N].
  - destruct (py_round_cases x) as [[Hx Rx] | [[Hx Rx] | [Hx Rx]]];
      destruct (py_round_cases y) as [[Hy Ry] | [[Hy Ry] | [Hy Ry]]];
      rewrite <- ?E in *.
    + lia.
    + destruct Ry; lia.
    + lia.
    + exfalso. lra.
    + unfold py_round in *. rewrite <- E.
      destruct (Qcompare_spec (x - inject_Z (Qfloor x)) (1 # 2)) as [_ | L | G];
        try lra.
      destruct (Qcompare_spec (y - inject_Z (Qfloor x)) (1 # 2)) as [_ | L | G];
        try lra.
      lia.
    + destruct Rx; lia.
    + exfalso. lra.
    + exfalso. lra.
    + lia.
  - pose proof (py_round_floor x). pose proof (py_round_floor y). lia.
Qed.

Lemma clampQ_bounds v : 0 <= clampQ v 0 1 <= 1.
Proof.
  unfold clampQ.
  destruct (Qlt_le_dec v 0); [lra |].
  destruct (Qlt_le_dec 1 v); lra.
Qed.

Lemma clampQ_mono u v : u <= v -> clampQ u 0 1 <= clampQ v 0 1.
Proof.
  intros H. unfold clampQ.
  destruct (Qlt_le_dec u 0), (Qlt_le_dec v 0); try lra;
    destruct (Qlt_le_dec 1 u), (Qlt_le_dec 1 v); lra.
Qed.

(** C5. For every raw axis value and every mode, [axis_to_trigger_0_255]
    yields an integer in [0,255]; it is monotonic (non-decreasing) in the
    mode's normalized input; and in the ascending bipolar mode, which is
    what a rest value of -1.0 is classified as, a raw reading of 0.0 yields
    128. *)
Theorem axis_to_trigger_range_monotone (mode : string) :
  (forall v, (0 <= axis_to_trigger_0_255 v mode <= 255)%Z) /\
  (forall v1 v2,
     trigger_input v1 mode <= trigger_input v2 mode ->
     (axis_to_trigger_0_255 v1 mode <= axis_to_trigger_0_255 v2 mode)%Z) /\
  trigger_mode_of_rest (-1) = "minus1_to_1"%string /\
  axis_to_trigger_0_255 0 (trigger_mode_of_rest (-1)) = 128%Z.
Proof.
  repeat split.
  - unfold axis_to_trigger_0_255.
    pose proof (clampQ_bounds (trigger_input v mode)) as [Hl _].
    apply (py_round_mono 0). lra.
  - unfold axis_to_trigger_0_255.
    pose proof (clampQ_bounds (trigger_input v mode)) as [_ Hu].
    apply (py_round_mono _ 255). lra.
  - intros v1 v2 H. unfold axis_to_trigger_0_255.
    apply py_round_mono. apply clampQ_mono in H. lra.
Qed.

Lemma axis_to_trigger_range_monotone_witness :
  (axis_to_trigger_0_255 (-0.5) "one_to_minus1"
   <= axis_to_trigger_0_255 (-1) "one_to_minus1")%Z.
Proof.
  apply (axis_to_trigger_range_monotone "one_to_minus1").
  vm_compute. discriminate.
Defined.

(** *** Pointer remainder *)

Lemma sum_dx_app a b : sum_dx (a ++ b) = (sum_dx a + sum_dx b)%Z.
Proof. unfold sum_dx. induction a as [| m a IH]; cbn in *; lia. Qed.

Lemma sum_dy_app a b : sum_dy (a ++ b) = (sum_dy a + sum_dy b)%Z.
Proof. unfold sum_dy. induction a as [| m a IH]; cbn in *; lia. Qed.

Lemma sum_mouse_move dx dy :
  sum_dx (mouse_move_relative dx dy) = dx /\
  sum_dy (mouse_move_relative dx dy) = dy.
Proof.
  unfold mouse_move_relative.
  destruct (Z.eqb_spec dx 0), (Z.eqb_spec dy 0); cbn; lia.
Qed.

Lemma pointer_emit_sent speed dt st mx my :
  sum_dx (pointer_emit speed dt st mx my).2
  = py_round (mouse_rem_x st + mx * speed * dt) /\
  sum_dy (pointer_emit speed dt st mx my).2
  = py_round (mouse_rem_y st + - my * speed * dt).
Proof. unfold pointer_emit. cbn [fst snd]. apply sum_mouse_move. Qed.

Lemma pointer_emit_rem speed dt st mx my :
  Qabs (mouse_rem_x (pointer_emit speed dt st mx my).1) <= 1 # 2 /\
  Qabs (mouse_rem_y (pointer_emit speed dt st mx my).1) <= 1 # 2.
Proof.
  unfold pointer_emit. cbn [fst snd mouse_rem_x mouse_rem_y].
  split; apply py_round_error.
Qed.

(** Nothing is lost: what was sent plus what is kept is what came in. *)
Lemma pointer_run_conserves speed dt mx my K st :
  let r := pointer_run speed dt st (replicate K (mx, my)) in
  inject_Z (sum_dx r.2) + mouse_rem_x r.1
  == mouse_rem_x st + inject_Z (Z.of_nat K) * (mx * speed * dt) /\
  inject_Z (sum_dy r.2) + mouse_rem_y r.1
  == mouse_rem_y st + inject_Z (Z.of_nat K) * (- my * speed * dt).
Proof.
  cbv zeta. revert st. induction K as [| K IH]; intros st.
  - cbn [replicate pointer_run fst snd sum_dx sum_dy foldr Z.of_nat].
    change (inject_Z 0) with 0. split; ring.
  - cbn [replicate pointer_run].
    destruct (pointer_emit speed dt st mx my) as [st1 sent1] eqn:E1.
    specialize (IH st1).
    destruct (pointer_run speed dt st1 (replicate K (mx, my)))
      as [st2 sent2] eqn:E2.
    cbn [fst snd] in *.
    rewrite sum_dx_app, sum_dy_app, !inject_Z_plus.
    destruct (pointer_emit_sent speed dt st mx my) as [Sx Sy].
    rewrite E1 in Sx, Sy. cbn [snd] in Sx, Sy. rewrite Sx, Sy.
    assert (Rx : mouse_rem_x st1
                 = mouse_rem_x st + mx * speed * dt
                   - inject_Z (py_round (mouse_rem_x st + mx * speed * dt)))
      by (unfold pointer_emit in E1; injection E1 as <- _; reflexivity).
    assert (Ry : mouse_rem_y st1
                 = mouse_rem_y st + - my * speed * dt
                   - inject_Z (py_round (mouse_rem_y st + - my * speed * dt)))
      by (unfold pointer_emit in E1; injection E1 as <- _; reflexivity).
    rewrite Rx, Ry in IH. destruct IH as [IHx IHy].
    rewrite Nat2Z.inj_succ. unfold Z.succ. rewrite inject_Z_plus.
    change (inject_Z 1) with 1.
    split; lra.
Qed.

Lemma pointer_run_rem speed dt ticks st :
  Qabs (mouse_rem_x st) <= 1 # 2 -> Qabs (mouse_rem_y st) <= 1 # 2 ->
  Qabs (mouse_rem_x (pointer_run speed dt st ticks).1) <= 1 # 2 /\
  Qabs (mouse_rem_y (pointer_run speed dt st ticks).1) <= 1 # 2.
Proof.
  revert st. induction ticks as [| [mx my] ticks IH]; intros st Hx Hy.
  - cbn [pointer_run fst]. auto.
  - cbn [pointer_run].
    destruct (pointer_emit_rem speed dt st mx my) as [Ex Ey].
    destruct (pointer_emit speed dt st mx my) as [st1 sent1].
    specialize (IH st1 Ex Ey).
    destruct (pointer_run speed dt st1 ticks) as [st2 sent2].
    exact IH.
Qed.

(** C6. An active tick sends the rounded accumulated motion and keeps the
    rest, whose absolute value is at most 1/2 in each component; so under a
    constant input the deltas sent over K ticks from the loop's initial
    remainder sum to within 1 unit of K times the per-tick motion. *)
Theorem pointer_remainder_invariant (speed dt : Q) :
  (forall st mx my,
     let r := pointer_emit speed dt st mx my in
     sum_dx r.2 = py_round (mouse_rem_x st + mx * speed * dt) /\
     sum_dy r.2 = py_round (mouse_rem_y st + - my * speed * dt) /\
     mouse_rem_x r.1
     == mouse_rem_x st + mx * speed * dt - inject_Z (sum_dx r.2) /\
     mouse_rem_y r.1
     == mouse_rem_y st + - my * speed * dt - inject_Z (sum_dy r.2) /\
     Qabs (mouse_rem_x r.1) <= 1 # 2 /\
     Qabs (mouse_rem_y r.1) <= 1 # 2) /\
  (forall mx my K,
     let r := pointer_run speed dt pointer_init (replicate K (mx, my)) in
     Qabs (mouse_rem_x r.1) <= 1 # 2 /\
     Qabs (mouse_rem_y r.1) <= 1 # 2 /\
     Qabs (inject_Z (sum_dx r.2)
           - inject_Z (Z.of_nat K) * (mx * speed * dt)) <= 1 /\
     Qabs (inject_Z (sum_dy r.2)
           - inject_Z (Z.of_nat K) * (- my * speed * dt)) <= 1).
Proof.
  split.
  - intros st mx my. cbv zeta.
    destruct (pointer_emit_sent speed dt st mx my) as [Sx Sy].
    destruct (pointer_emit_rem speed dt st mx my) as [Bx By].
    repeat split; try assumption.
    + rewrite Sx. unfold pointer_emit. cbn [fst snd mouse_rem_x]. reflexivity.
    + rewrite Sy. unfold pointer_emit. cbn [fst snd mouse_rem_y]. reflexivity.
  - intros mx my K. cbv zeta.
    destruct (pointer_run_conserves speed dt mx my K pointer_init) as [Cx Cy].
    destruct (pointer_run_rem speed dt (replicate K (mx, my)) pointer_init)
      as [Bx By]; [vm_compute; discriminate | vm_compute; discriminate |].
    cbn [pointer_init mouse_rem_x mouse_rem_y] in Cx, Cy.
    apply Qabs_Qle_condition in Bx, By.
    repeat split; try (apply Qabs_Qle_condition; lra).
Qed.

End RationalProperties.

(** ** Chords *)

Section ChordProperties.

Lemma chord_step_state st h :
  (chord_step st h).1
  = {| f8_combo_armed := combo_f8 h; prev_l3 := l3 h;
       f12_combo_armed := combo_f12 h |}.
Proof.
  unfold chord_step, combo_f8, combo_f12.
  destruct st as [a8 p3 a12], h as [[] [] [] []], a8, a12; reflexivity.
Qed.

Lemma chord_step_taps st h :
  (chord_step st h).2
  = (if rising (f8_combo_armed st) (combo_f8 h) then [VK_F8] else [])
    ++ (if rising (prev_l3 st) (l3 h) then [VK_F11] else [])
    ++ (if rising (f12_combo_armed st) (combo_f12 h) then [VK_F12] else []).
Proof.
  unfold chord_step, combo_f8, combo_f12, rising.
  destruct st as [a8 p3 a12], h as [[] [] [] []], a8, p3, a12; reflexivity.
Qed.

Lemma chord_run_lookup_from prev ticks i h :
  ticks !! i = Some h ->
  chord_run {| f8_combo_armed := combo_f8 prev; prev_l3 := l3 prev;
               f12_combo_armed := combo_f12 prev |} ticks !! i
  = Some (taps_of (match i with O => prev | S j => default released (ticks !! j) end) h).
Proof.
  revert prev i. induction ticks as [| t ticks IH]; intros prev i Hi.
  - destruct i; discriminate.
  - cbn [chord_run].
    pose proof (chord_step_state
      {| f8_combo_armed := combo_f8 prev; prev_l3 := l3 prev;
         f12_combo_armed := combo_f12 prev |} t) as Hs.
    pose proof (chord_step_taps
      {| f8_combo_armed := combo_f8 prev; prev_l3 := l3 prev;
         f12_combo_armed := combo_f12 prev |} t) as Ht.
    destruct (chord_step _ t) as [st' taps]. cbn [fst snd] in Hs, Ht.
    subst st' taps.
    destruct i as [| i].
    + injection Hi as <-. reflexivity.
    + cbn in Hi. refine (eq_trans (IH t i Hi) _).
      destruct i as [| i]; reflexivity.
Qed.

Lemma chord_run_lookup ticks i h :
  ticks !! i = Some h ->
  chord_run chord_init ticks !! i = Some (taps_of (previous ticks i) h).
Proof.
  intros Hi. apply (chord_run_lookup_from released ticks i h Hi).
Qed.

Lemma chord_run_length st ticks : length (chord_run st ticks) = length ticks.
Proof.
  revert st. induction ticks as [| t ticks IH]; intros st; [reflexivity |].
  cbn [chord_run]. destruct (chord_step st t) as [st' taps].
  cbn. now rewrite IH.
Qed.

Lemma taps_of_count prev cur :
  count_occ vkey_eq_dec (taps_of prev cur) VK_F8
  = (if rising (combo_f8 prev) (combo_f8 cur) then 1 else 0) /\
  count_occ vkey_eq_dec (taps_of prev cur) VK_F11
  = (if rising (l3 prev) (l3 cur) then 1 else 0) /\
  count_occ vkey_eq_dec (taps_of prev cur) VK_F12
  = (if rising (combo_f12 prev) (combo_f12 cur) then 1 else 0).
Proof.
  unfold taps_of.
  destruct (rising (combo_f8 prev) (combo_f8 cur)),
    (rising (l3 prev) (l3 cur)),
    (rising (combo_f12 prev) (combo_f12 cur)); repeat split.
Qed.

Lemma taps_of_elem prev cur :
  (VK_F8 ∈ taps_of prev cur -> rising (combo_f8 prev) (combo_f8 cur) = true) /\
  (VK_F11 ∈ taps_of prev cur -> rising (l3 prev) (l3 cur) = true) /\
  (VK_F12 ∈ taps_of prev cur -> rising (combo_f12 prev) (combo_f12 cur) = true).
Proof.
  unfold taps_of.
  destruct (rising (combo_f8 prev) (combo_f8 cur)),
    (rising (l3 prev) (l3 cur)),
    (rising (combo_f12 prev) (combo_f12 cur));
    repeat split; intros H; try reflexivity;
    apply list_elem_of_In in H; cbn in H; intuition discriminate.
Qed.

(** Two rising edges of a condition [c] are separated by a tick at which
    the condition is false. *)
Lemma rising_edges_separated (c : held -> bool) ticks i j hi hj :
  c released = false ->
  i < j -> ticks !! i = Some hi -> ticks !! j = Some hj ->
  rising (c (previous ticks i)) (c hi) = true ->
  rising (c (previous ticks j)) (c hj) = true ->
  exists k hk, i < k < j /\ ticks !! k = Some hk /\ c hk = false.
Proof.
  intros Hrel Hij Hi Hj Ri Rj.
  unfold rising in *.
  apply andb_true_iff in Ri as [Ci _].
  apply andb_true_iff in Rj as [_ Pj]. apply negb_true_iff in Pj.
  destruct j as [| j']; [lia |]. cbn [previous] in Pj.
  assert (Hlt : j' < length ticks).
  { apply lookup_lt_Some in Hj. lia. }
  destruct (lookup_lt_is_Some_2 ticks j' Hlt) as [hk Hk].
  rewrite Hk in Pj. cbn in Pj.
  assert (i <> j') by (intros ->; congruence).
  exists j', hk. repeat split; [lia | lia | exact Hk | exact Pj].
Qed.

(** C4. Over every run of ticks, at each tick the F8 chord (L1+R3) taps its
    key exactly once if its condition holds at the tick and did not hold at
    the tick before, and not at all otherwise; likewise the F12 chord
    (L1+Start) and the single control L3 (F11). Hence between two taps of
    the same binding there is a tick at which its condition was false. *)
Theorem chord_fires_once_per_rising_edge (ticks : list held) :
  (forall i h, ticks !! i = Some h ->
     exists taps,
       chord_run chord_init ticks !! i = Some taps /\
       count_occ vkey_eq_dec taps VK_F8
       = (if rising (combo_f8 (previous ticks i)) (combo_f8 h) then 1 else 0) /\
       count_occ vkey_eq_dec taps VK_F11
       = (if rising (l3 (previous ticks i)) (l3 h) then 1 else 0) /\
       count_occ vkey_eq_dec taps VK_F12
       = (if rising (combo_f12 (previous ticks i)) (combo_f12 h)
          then 1 else 0)) /\
  (forall i j ti tj,
     i < j ->
     chord_run chord_init ticks !! i = Some ti ->
     chord_run chord_init ticks !! j = Some tj ->
     (VK_F8 ∈ ti -> VK_F8 ∈ tj ->
      exists k hk, i < k < j /\ ticks !! k = Some hk /\ combo_f8 hk = false) /\
     (VK_F11 ∈ ti -> VK_F11 ∈ tj ->
      exists k hk, i < k < j /\ ticks !! k = Some hk /\ l3 hk = false) /\
     (VK_F12 ∈ ti -> VK_F12 ∈ tj ->
      exists k hk, i < k < j /\ ticks !! k = Some hk /\ combo_f12 hk = false)).
Proof.
  split.
  - intros i h Hi. exists (taps_of (previous ticks i) h).
    split; [now apply chord_run_lookup | apply taps_of_count].
  - intros i j ti tj Hij Hti Htj.
    assert (Hi : is_Some (ticks !! i)).
    { apply lookup_lt_is_Some. apply lookup_lt_Some in Hti.
      now rewrite chord_run_length in Hti. }
    assert (Hj : is_Some (ticks !! j)).
    { apply lookup_lt_is_Some. apply lookup_lt_Some in Htj.
      now rewrite chord_run_length in Htj. }
    destruct Hi as [hi Hi], Hj as [hj Hj].
    rewrite (chord_run_lookup ticks i hi Hi) in Hti.
    rewrite (chord_run_lookup ticks j hj Hj) in Htj.
    injection Hti as <-. injection Htj as <-.
    destruct (taps_of_elem (previous ticks i) hi) as (E8i & E11i & E12i).
    destruct (taps_of_elem (previous ticks j) hj) as (E8j & E11j & E12j).
    repeat split; intros Fi Fj.
    + apply (rising_edges_separated combo_f8 ticks i j hi hj); auto.
    + apply (rising_edges_separated l3 ticks i j hi hj); auto.
    + apply (rising_edges_separated combo_f12 ticks i j hi hj); auto.
Qed.

Lemma chord_fires_once_per_rising_edge_witness :
  exists taps,
    chord_run chord_init chord_demo !! 1 = Some taps /\
    count_occ vkey_eq_dec taps VK_F8 = 0 /\
    count_occ vkey_eq_dec taps VK_F11 = 1 /\
    count_occ vkey_eq_dec taps VK_F12 = 0.
Proof.
  destruct (chord_fires_once_per_rising_edge chord_demo) as [Hfire _].
  apply (Hfire 1 {| l1 := true; r3 := true; start := false; l3 := true |}).
  reflexivity.
Defined.

End ChordProperties.

(** ** Reading calibrated controls *)

Section ReadProperties.
Local Open Scope Z_scope.





End ReadProperties.

(** ** The shared configuration store *)

Section StoreProperties.

Context (json_dumps : gmap string pyval -> string)
        (json_loads : string -> option pyval).

Lemma hasattr_true (c : gmap string pyval) k : hasattr c k = true <-> is_Some (c !! k).
Proof. unfold hasattr. apply bool_decide_eq_true. Qed.

Lemma hasattr_false (c : gmap string pyval) k : hasattr c k = false <-> c !! k = None.
Proof.
  unfold hasattr. rewrite bool_decide_eq_false. symmetry.
  apply eq_None_not_Some.
Qed.

Lemma apply_fields_cons (c : gmap string pyval) kv items :
  apply_fields c (kv :: items)
  = apply_fields (if hasattr c kv.1 then <[kv.1 := kv.2]> c else c) items.
Proof. reflexivity. Qed.

(** A field that names no attribute adds none. *)
Lemma apply_fields_unknown items (c : gmap string pyval) k :
  c !! k = None -> apply_fields c items !! k = None.
Proof.
  revert c. induction items as [| [k' v'] items IH]; intros c Hk; [exact Hk |].
  rewrite apply_fields_cons. apply IH. cbn [fst snd].
  destruct (hasattr c k') eqn:E; [| exact Hk].
  apply hasattr_true in E. rewrite lookup_insert_ne; [exact Hk |].
  intros ->. rewrite Hk in E. now destruct E.
Qed.

(** An attribute no field names keeps its value. *)
Lemma apply_fields_other items (c : gmap string pyval) k :
  k ∉ items.*1 -> apply_fields c items !! k = c !! k.
Proof.
  revert c. induction items as [| [k' v'] items IH]; intros c Hk; [reflexivity |].
  rewrite apply_fields_cons. cbn [fmap list_fmap fst] in Hk.
  apply not_elem_of_cons in Hk as [Hne Hk].
  rewrite IH by exact Hk. cbn [fst snd].
  destruct (hasattr c k'); [| reflexivity].
  now rewrite lookup_insert_ne.
Qed.

(** An attribute a field names takes the field's value. *)
Lemma apply_fields_known items (c : gmap string pyval) k v :
  NoDup items.*1 -> (k, v) ∈ items -> is_Some (c !! k) ->
  apply_fields c items !! k = Some v.
Proof.
  revert c. induction items as [| [k' v'] items IH]; intros c Hnd Hin Hc.
  - now apply elem_of_nil in Hin.
  - rewrite apply_fields_cons. cbn [fmap list_fmap fst] in Hnd.
    apply NoDup_cons in Hnd as [Hfresh Hnd]. cbn [fst snd].
    apply elem_of_cons in Hin as [Heq | Hin].
    + injection Heq as <- <-.
      rewrite apply_fields_other by exact Hfresh.
      apply hasattr_true in Hc. rewrite Hc. apply lookup_insert_eq.
    + apply IH; [exact Hnd | exact Hin |].
      destruct (hasattr c k'); [| exact Hc].
      destruct (decide (k' = k)) as [-> | Hne].
      * rewrite lookup_insert_eq. eauto.
      * now rewrite lookup_insert_ne.
Qed.

(** The overlay of a parsed object: recognised keys take the document's
    value, the rest of the configuration stays, nothing is added. *)
Lemma apply_fields_map (c data : gmap string pyval) k :
  apply_fields c (map_to_list data) !! k
  = match c !! k with
    | None => None
    | Some old => Some (default old (data !! k))
    end.
Proof.
  destruct (c !! k) as [old |] eqn:Hc.
  - destruct (data !! k) as [v |] eqn:Hd; cbn.
    + apply apply_fields_known.
      * apply NoDup_fst_map_to_list.
      * now apply elem_of_map_to_list.
      * rewrite Hc. eauto.
    + rewrite apply_fields_other; [exact Hc |].
      intros Hin. apply list_elem_of_fmap in Hin as ([k' v'] & -> & Hin).
      apply elem_of_map_to_list in Hin. cbn in Hd. congruence.
  - now apply apply_fields_unknown.
Qed.



End StoreProperties.




(** The edited document on the fresh store: [wrap_yaw] is overlaid, [bogus]
    is not added, the other attributes are kept. *)
Example maybe_reload_edited_doc :
  exists st',
    maybe_reload_from_disk demo_loads fresh_state (Some edited_doc) = Ok st' /\
    cfg st' !! "wrap_yaw" = Some (PyBool false) /\
    cfg st' !! "bogus" = None /\
    cfg st' !! "poll_hz" = Some (PyInt 240).
Proof. eexists. repeat split; vm_compute; reflexivity. Qed.

(** A valid document that is not an object has no [items]. *)
Example maybe_reload_not_an_object :
  maybe_reload_from_disk demo_loads fresh_state (Some "[1]")
  = Raise AttributeError.
Proof. vm_compute. reflexivity. Qed.

(** ** The calibration wizard *)

Section WizardProperties.

Lemma keeps_disk_wret {A} (a : A) : keeps_disk (wret a).
Proof. intros w. reflexivity. Qed.

Lemma keeps_disk_lift {A} (r : result A) : keeps_disk (lift r).
Proof. intros w. unfold lift. destruct r; reflexivity. Qed.

Lemma keeps_disk_read_device : keeps_disk read_device.
Proof. intros w. reflexivity. Qed.

Lemma keeps_disk_pump : keeps_disk pump.
Proof.
  intros w. unfold pump. destruct (pending w) as [| [js |] evs]; reflexivity.
Qed.

Lemma keeps_disk_deliver_interrupt : keeps_disk deliver_interrupt.
Proof.
  intros w. unfold deliver_interrupt.
  destruct (pending w) as [| [js |] evs]; reflexivity.
Qed.

Lemma keeps_disk_wbind {A B} (m : wizard A) (f : A -> wizard B) :
  keeps_disk m -> (forall a, keeps_disk (f a)) -> keeps_disk (wbind m f).
Proof.
  intros Hm Hf w. unfold wbind. specialize (Hm w).
  destruct (m w) as [a w1 | e w1 | w1]; cbn in *; [| exact Hm | exact Hm].
  rewrite (Hf a w1). exact Hm.
Qed.

Lemma poll_events_disk {A} (body : joystick -> result (option A)) evs dev dsk :
  disk (final_world (poll_events body evs dev dsk)) = dsk.
Proof.
  revert dev. induction evs as [| [js |] evs IH]; intros dev; cbn;
    [reflexivity | | reflexivity].
  destruct (body js) as [[a |] | e]; cbn; [reflexivity | apply IH | reflexivity].
Qed.

Lemma keeps_disk_poll {A} (body : joystick -> result (option A)) :
  keeps_disk (poll body).
Proof. intros w. unfold poll. apply poll_events_disk. Qed.

Create HintDb wizard_frame.
#[local] Hint Resolve keeps_disk_wret keeps_disk_lift keeps_disk_read_device
  keeps_disk_pump keeps_disk_poll : wizard_frame.

Ltac frame :=
  repeat first
    [ apply keeps_disk_wbind; [| intros ?]
    | match goal with
      | |- keeps_disk (let '(_, _) := ?r in _) => destruct r
      | |- keeps_disk (if ?b then _ else _) => destruct b
      end
    | solve [auto with wizard_frame] ].

Lemma keeps_disk_wait_for_buttons_released : keeps_disk wait_for_buttons_released.
Proof. apply keeps_disk_poll. Qed.

Lemma keeps_disk_detect_first_button_press : keeps_disk detect_first_button_press.
Proof. apply keeps_disk_poll. Qed.

Lemma keeps_disk_detect_hat_direction : keeps_disk detect_hat_direction.
Proof. apply keeps_disk_poll. Qed.

Lemma keeps_disk_wait_for_axis_near i r eps :
  keeps_disk (wait_for_axis_near i r eps).
Proof. apply keeps_disk_poll. Qed.

Lemma keeps_disk_detect_trigger_axis d : keeps_disk (detect_trigger_axis d).
Proof. unfold detect_trigger_axis. frame. Qed.

Lemma keeps_disk_detect_axis_by_moving d : keeps_disk (detect_axis_by_moving d).
Proof. unfold detect_axis_by_moving. frame. Qed.

#[local] Hint Resolve keeps_disk_wait_for_buttons_released
  keeps_disk_detect_first_button_press keeps_disk_detect_hat_direction
  keeps_disk_wait_for_axis_near keeps_disk_detect_trigger_axis
  keeps_disk_detect_axis_by_moving : wizard_frame.

Lemma keeps_disk_probe_sticks prompts sa : keeps_disk (probe_sticks prompts sa).
Proof.
  revert sa. induction prompts as [| key prompts IH]; intros sa; cbn [probe_sticks].
  - frame.
  - apply keeps_disk_wbind; [auto with wizard_frame |].
    intros [[axis_i sign] rest_val].
    apply keeps_disk_wbind; [auto with wizard_frame | intros _; apply IH].
Qed.

#[local] Hint Resolve keeps_disk_probe_sticks : wizard_frame.

Lemma keeps_disk_calibrate_sticks c cal : keeps_disk (calibrate_sticks c cal).
Proof. unfold calibrate_sticks. frame. Qed.

Lemma keeps_disk_probe_button key cal : keeps_disk (probe_button key cal).
Proof. unfold probe_button. frame. Qed.

#[local] Hint Resolve keeps_disk_calibrate_sticks keeps_disk_probe_button
  : wizard_frame.

Lemma keeps_disk_calibrate_step key cal : keeps_disk (calibrate_step key cal).
Proof.
  unfold calibrate_step.
  apply keeps_disk_wbind; [auto with wizard_frame | intros _].
  destruct (bool_decide (key ∈ button_keys)); [auto with wizard_frame |].
  destruct (bool_decide (key ∈ dpad_keys)).
  { frame. }
  destruct (bool_decide (key ∈ trigger_keys)); [| frame].
  apply keeps_disk_wbind; [auto with wizard_frame |].
  intros [[axis_i mode] rest_val]. frame.
Qed.

Lemma keeps_disk_run_steps keys cal : keeps_disk (run_steps keys cal).
Proof.
  revert cal. induction keys as [| key keys IH]; intros cal; cbn [run_steps].
  - frame.
  - apply keeps_disk_wbind; [apply keeps_disk_calibrate_step | intros ?; apply IH].
Qed.

(** *** What a completed wizard has captured *)

Lemma wbind_returned {A B} (m : wizard A) (f : A -> wizard B) w b w' :
  wbind m f w = Returned b w' ->
  exists a w1, m w = Returned a w1 /\ f a w1 = Returned b w'.
Proof.
  unfold wbind. destruct (m w) as [a w1 | e w1 | w1]; try discriminate.
  intros H. eauto.
Qed.

Ltac wizard_inv :=
  repeat match goal with
    | H : wbind _ _ _ = Returned _ _ |- _ =>
        let a := fresh "a" in let w := fresh "w" in let E := fresh "E" in
        apply wbind_returned in H as (a & w & E & H)
    | H : wret _ _ = Returned _ _ |- _ => unfold wret in H; injection H as <- <-
    | H : (let '(_, _) := ?r in _) _ = Returned _ _ |- _ => destruct r
    | H : (if ?b then _ else _) _ = Returned _ _ |- _ => destruct b
    end.

Lemma calibrate_step_returned key cal w cal' w' :
  calibrate_step key cal w = Returned cal' w' ->
  exists v, cal' = <[key := v]> cal.
Proof.
  unfold calibrate_step, probe_button. intros H. wizard_inv; eauto.
Qed.

Lemma run_steps_returned keys cal w cal' w' :
  run_steps keys cal w = Returned cal' w' ->
  (forall k, k ∈ keys -> is_Some (cal' !! k)) /\
  (forall k, is_Some (cal !! k) -> is_Some (cal' !! k)).
Proof.
  revert cal w. induction keys as [| key keys IH]; intros cal w H;
    cbn [run_steps] in H.
  - wizard_inv. split; [intros k Hk; now apply elem_of_nil in Hk | auto].
  - apply wbind_returned in H as (cal1 & w1 & Hstep & H).
    apply calibrate_step_returned in Hstep as [v ->].
    apply IH in H as [Hin Hkeep]. split.
    + intros k Hk. apply elem_of_cons in Hk as [-> | Hk]; [| auto].
      apply Hkeep. rewrite lookup_insert_eq. eauto.
    + intros k Hk. apply Hkeep.
      destruct (decide (key = k)) as [-> | Hne].
      * rewrite lookup_insert_eq. eauto.
      * now rewrite lookup_insert_ne.
Qed.

Lemma calibrate_sticks_returned c cal w c' cal' w' :
  calibrate_sticks c cal w = Returned (c', cal') w' ->
  is_Some (cal' !! "stick_axes") /\
  (forall k, is_Some (cal !! k) -> is_Some (cal' !! k)).
Proof.
  unfold calibrate_sticks. intros H. wizard_inv. split.
  - rewrite lookup_insert_eq. eauto.
  - intros k Hk. destruct (decide ("stick_axes" = k)) as [<- | Hne].
    + rewrite lookup_insert_eq. eauto.
    + now rewrite lookup_insert_ne.
Qed.

Lemma calibrate_controller_outcome json_dumps c w :
  match calibrate_controller json_dumps c w with
  | Returned c' w' =>
      disk w' = Some (json_dumps c') /\
      c' !! "calibrated" = Some (PyBool true) /\
      exists cal, c' !! "calibration" = Some (PyDict cal) /\ complete_map cal
  | Raised _ w' | Waiting w' => disk w' = disk w
  end.
Proof.
  unfold calibrate_controller. unfold wbind at 1. cbn [read_device].
  unfold wbind at 1.
  pose proof (keeps_disk_wait_for_buttons_released w) as D1.
  destruct (wait_for_buttons_released w) as [[] w1 | e w1 | w1];
    cbn [final_world] in D1; [| exact D1 | exact D1].
  unfold wbind at 1.
  match goal with |- context [calibrate_sticks c ?cal w1] =>
    pose proof (keeps_disk_calibrate_sticks c cal w1) as D2;
    pose proof (calibrate_sticks_returned c cal w1) as S2;
    destruct (calibrate_sticks c cal w1) as [[c1 cal1] w2 | e w2 | w2]
  end; cbn [final_world] in D2; [| congruence | congruence].
  specialize (S2 c1 cal1 w2 eq_refl) as [Hsticks Hkeep1].
  unfold wbind at 1.
  pose proof (keeps_disk_run_steps steps cal1 w2) as D3.
  pose proof (run_steps_returned steps cal1 w2) as S3.
  destruct (run_steps steps cal1 w2) as [cal2 w3 | e w3 | w3];
    cbn [final_world] in D3; [| congruence | congruence].
  specialize (S3 cal2 w3 eq_refl) as [Hsteps Hkeep2].
  unfold wbind at 1.
  pose proof (keeps_disk_deliver_interrupt w3) as D4.
  destruct (deliver_interrupt w3) as [[] w4 | e w4 | w4];
    cbn [final_world] in D4; [| congruence | congruence].
  cbn. split; [reflexivity |]. split; [apply lookup_insert_eq |].
  exists cal2. split.
  - rewrite lookup_insert_ne by discriminate. apply lookup_insert_eq.
  - repeat split.
    + exact Hsteps.
    + auto.
    + apply Hkeep2, Hkeep1. rewrite lookup_insert_eq. eauto.
    + apply Hkeep2, Hkeep1. rewrite lookup_insert_ne by discriminate.
      rewrite lookup_insert_eq. eauto.
Qed.


End WizardProperties.


(** The operator who follows every prompt: the wizard returns with the
    script used up, the document holds the text of the configuration
    returned, and the bindings read back as captured: R3 is button 9, and
    L2, which rests at -1, reads 128 at the middle of its travel. *)
Example calibration_completes :
  let r := calibrate_controller demo_dumps default_config
             (start_world operator_script) in
  let cal := default PyNone (returned r ≫= (.!! "calibration")) in
  raised r = None /\ waiting r = false /\
  pending (final_world r) = [] /\
  disk (final_world r) = demo_dumps <$> returned r /\
  ((.!! "calibrated") <$> returned r) = Some (Some (PyBool true)) /\
  read_cal_button (with_button 9 pad_rest) cal "r3" = Ok true /\
  read_cal_button pad_rest cal "r3" = Ok false /\
  read_cal_trigger (with_axis 4 0 pad_rest) cal "l2_lt" = Ok 128%Z /\
  read_cal_trigger pad_rest cal "l2_lt" = Ok 0%Z.
Proof.
  cbv zeta.
  repeat match goal with |- _ /\ _ => split end; vm_compute; reflexivity.
Qed.

(** An operator who stops acting leaves the wizard waiting; one who
    interrupts before the first prompt, at the very last release, or after
    the last probe and before the document is written, stops it; in each
    case the document is the old one. *)
Example calibration_waits_or_stops :
  let run evs :=
    calibrate_controller demo_dumps default_config (start_world evs) in
  waiting (run (take 30 operator_script)) = true /\
  disk (final_world (run (take 30 operator_script))) = Some "old" /\
  raised (run (interrupted_script 0)) = Some KeyboardInterrupt /\
  disk (final_world (run (interrupted_script 0))) = Some "old" /\
  raised (run (interrupted_script 63)) = Some KeyboardInterrupt /\
  disk (final_world (run (interrupted_script 63))) = Some "old" /\
  raised (run (interrupted_script 64)) = Some KeyboardInterrupt /\
  disk (final_world (run (interrupted_script 64))) = Some "old".
Proof.
  cbv zeta.
  repeat match goal with |- _ /\ _ => split end; vm_compute; reflexivity.
Qed.

(** * Further properties of the loop, the probes and the store *)

(** ** Rotation, wrap, smoothing and pointer curve *)

Section MovementProperties.
Local Open Scope R_scope.




















End MovementProperties.

(** ** Quantization and trigger modes *)

Section QuantizationProperties.
Local Open Scope Q_scope.

(** [round] returns the only integer within 1/2 of its argument, the even
    one of the two on a tie. *)
Lemma py_round_unique x z :
  Qabs (x - inject_Z z) < 1 # 2 \/
  (Qabs (x - inject_Z z) == 1 # 2 /\ Z.even z = true) ->
  py_round x = z.
Proof.
  intros H.
  pose proof (Qfloor_le x) as Hl. pose proof (Qlt_floor x) as Hu.
  rewrite inject_Z_plus in Hu. change (inject_Z 1) with 1 in Hu.
  assert (B : - (1 # 2) <= x - inject_Z z <= 1 # 2).
  { apply Qabs_Qle_condition. destruct H as [H | [H _]]; lra. }
  assert (Hz : (z = Qfloor x \/ z = Qfloor x + 1)%Z).
  { assert (L : inject_Z (Qfloor x) < inject_Z (z + 1)).
    { rewrite inject_Z_plus. change (inject_Z 1) with 1. lra. }
    assert (U : inject_Z z < inject_Z (Qfloor x + 2)).
    { rewrite inject_Z_plus. change (inject_Z 2) with 2. lra. }
    rewrite <- Zlt_Qlt in L, U. lia. }
  destruct (py_round_cases x) as [[Hx R] | [[Hx R] | [Hx R]]];
    destruct Hz as [-> | ->]; rewrite ?inject_Z_plus in H, B;
    change (inject_Z 1) with 1 in H, B.
  - exact R.
  - exfalso. lra.
  - destruct H as [H | [_ He]].
    + exfalso. apply Qabs_Qlt_condition in H. lra.
    + destruct R as [R | R]; [exact R |].
      unfold py_round in R.
      destruct (Qcompare_spec (x - inject_Z (Qfloor x)) (1 # 2)); try lra.
      rewrite He in R. lia.
  - destruct H as [H | [_ He]].
    + exfalso. apply Qabs_Qlt_condition in H. lra.
    + destruct R as [R | R]; [| exact R].
      unfold py_round in R.
      destruct (Qcompare_spec (x - inject_Z (Qfloor x)) (1 # 2)); try lra.
      rewrite Z.even_add in He. cbn in He.
      destruct (Z.even (Qfloor x)); [discriminate | lia].
  - exfalso. lra.
  - exact R.
Qed.

Lemma py_round_spec x :
  Qabs (x - inject_Z (py_round x)) < 1 # 2 \/
  (Qabs (x - inject_Z (py_round x)) == 1 # 2 /\ Z.even (py_round x) = true).
Proof.
  pose proof (Qfloor_le x) as Hl. pose proof (Qlt_floor x) as Hu.
  rewrite inject_Z_plus in Hu. change (inject_Z 1) with 1 in Hu.
  unfold py_round.
  destruct (Qcompare_spec (x - inject_Z (Qfloor x)) (1 # 2)) as [E | L | G].
  - right. destruct (Z.even (Qfloor x)) eqn:Ev.
    + split; [| exact Ev]. rewrite Qabs_pos by lra. exact E.
    + split.
      * rewrite inject_Z_plus. change (inject_Z 1) with 1.
        rewrite Qabs_neg by lra. lra.
      * rewrite Z.even_add, Ev. reflexivity.
  - left. apply Qabs_Qlt_condition. lra.
  - left. rewrite inject_Z_plus. change (inject_Z 1) with 1.
    apply Qabs_Qlt_condition. lra.
Qed.

Lemma py_round_opp x : py_round (- x) = (- py_round x)%Z.
Proof.
  apply py_round_unique.
  assert (E : - x - inject_Z (- py_round x) == - (x - inject_Z (py_round x))).
  { rewrite inject_Z_opp. ring. }
  rewrite E, Qabs_opp, Z.even_opp. apply py_round_spec.
Qed.

Lemma py_round_proper x y : x == y -> py_round x = py_round y.
Proof.
  intros E. apply Z.le_antisymm; apply py_round_mono; lra.
Qed.

Lemma clampQ_range v lo hi : lo <= hi -> lo <= clampQ v lo hi <= hi.
Proof.
  intros H. unfold clampQ.
  destruct (Qlt_le_dec v lo); [lra |]. destruct (Qlt_le_dec hi v); lra.
Qed.

Lemma clampQ_monotone u v lo hi :
  lo <= hi -> u <= v -> clampQ u lo hi <= clampQ v lo hi.
Proof.
  intros Hb H. unfold clampQ.
  destruct (Qlt_le_dec u lo), (Qlt_le_dec v lo); try lra;
    destruct (Qlt_le_dec hi u), (Qlt_le_dec hi v); lra.
Qed.

(** X7. [to_short_axis] always yields a value in [-32767, 32767] (never
    -32768), saturates at the ends for inputs beyond [-1, 1], is monotonic,
    and is odd: negating the input negates the output. *)
Theorem to_short_axis_range (v w : Q) :
  (-32767 <= to_short_axis v <= 32767)%Z /\
  (1 <= v -> to_short_axis v = 32767%Z) /\
  (v <= -1 -> to_short_axis v = (-32767)%Z) /\
  (v <= w -> (to_short_axis v <= to_short_axis w)%Z) /\
  to_short_axis (- v) = (- to_short_axis v)%Z.
Proof.
  unfold to_short_axis.
  pose proof (clampQ_range v (-1) 1 ltac:(lra)) as Hv.
  repeat split.
  - apply (py_round_mono (-32767)). lra.
  - apply (py_round_mono _ 32767). lra.
  - intros H. apply (py_round_proper _ 32767).
    unfold clampQ. destruct (Qlt_le_dec v (-1)); [lra |].
    destruct (Qlt_le_dec 1 v); lra.
  - intros H. apply (py_round_proper _ (-32767)).
    unfold clampQ. destruct (Qlt_le_dec v (-1)); [lra |].
    destruct (Qlt_le_dec 1 v); lra.
  - intros H. apply py_round_mono.
    pose proof (clampQ_monotone v w (-1) 1 ltac:(lra) H). lra.
  - rewrite <- py_round_opp. apply py_round_proper.
    unfold clampQ.
    destruct (Qlt_le_dec (- v) (-1)), (Qlt_le_dec v (-1)); try lra;
      destruct (Qlt_le_dec 1 (- v)), (Qlt_le_dec 1 v); lra.
Qed.

Lemma to_short_axis_range_witness : to_short_axis 1.5 = 32767%Z.
Proof. apply (to_short_axis_range 1.5 0). lra. Defined.

Lemma axis_to_trigger_bounds v mode :
  (0 <= axis_to_trigger_0_255 v mode <= 255)%Z.
Proof.
  unfold axis_to_trigger_0_255.
  pose proof (clampQ_bounds (trigger_input v mode)) as [Hl Hu].
  split; [apply (py_round_mono 0) | apply (py_round_mono _ 255)]; lra.
Qed.

(** X8. The descending bipolar mode reads an axis as the ascending mode
    reads the negated axis; a mode name that is none of the three is read as
    ascending; and the ascending mode is 0 at or below -1 and 255 at or
    above 1, the direct mode 0 at or below 0 and 255 at or above 1. *)
Theorem axis_to_trigger_modes (v : Q) (mode : string) :
  axis_to_trigger_0_255 v "one_to_minus1"
  = axis_to_trigger_0_255 (- v) "minus1_to_1" /\
  (mode <> "minus1_to_1"%string -> mode <> "zero_to_1"%string ->
   mode <> "one_to_minus1"%string ->
   axis_to_trigger_0_255 v mode = axis_to_trigger_0_255 v "minus1_to_1") /\
  (v <= -1 -> axis_to_trigger_0_255 v "minus1_to_1" = 0%Z) /\
  (1 <= v -> axis_to_trigger_0_255 v "minus1_to_1" = 255%Z) /\
  (v <= 0 -> axis_to_trigger_0_255 v "zero_to_1" = 0%Z) /\
  (1 <= v -> axis_to_trigger_0_255 v "zero_to_1" = 255%Z).
Proof.
  assert (Hsat0 : forall t, t <= 0 -> py_round (clampQ t 0 1 * 255) = 0%Z).
  { intros t Ht. apply (py_round_proper _ 0). unfold clampQ.
    destruct (Qlt_le_dec t 0); [lra |]. destruct (Qlt_le_dec 1 t); lra. }
  assert (Hsat1 : forall t, 1 <= t -> py_round (clampQ t 0 1 * 255) = 255%Z).
  { intros t Ht. apply (py_round_proper _ 255). unfold clampQ.
    destruct (Qlt_le_dec t 0); [lra |]. destruct (Qlt_le_dec 1 t); lra. }
  repeat split.
  - unfold axis_to_trigger_0_255. apply py_round_proper.
    change (trigger_input v "one_to_minus1") with ((1 - v) * 0.5).
    change (trigger_input (- v) "minus1_to_1") with ((- v + 1) * 0.5).
    assert (E : (1 - v) * 0.5 == (- v + 1) * 0.5) by ring.
    pose proof (clampQ_monotone ((1 - v) * 0.5) ((- v + 1) * 0.5) 0 1).
    pose proof (clampQ_monotone ((- v + 1) * 0.5) ((1 - v) * 0.5) 0 1).
    lra.
  - intros H1 H2 H3. unfold axis_to_trigger_0_255, trigger_input.
    apply String.eqb_neq in H1, H2, H3. rewrite H1, H2, H3. reflexivity.
  - intros H. apply Hsat0. change ((v + 1) * 0.5 <= 0). lra.
  - intros H. apply Hsat1. change (1 <= (v + 1) * 0.5). lra.
  - intros H. apply Hsat0. exact H.
  - intros H. apply Hsat1. exact H.
Qed.

Lemma axis_to_trigger_modes_witness :
  axis_to_trigger_0_255 0.3 "bogus" = axis_to_trigger_0_255 0.3 "minus1_to_1".
Proof.
  apply (axis_to_trigger_modes 0.3 "bogus"); discriminate.
Defined.

End QuantizationProperties.

(** ** Repeat timers *)

Section RepeaterProperties.
Local Open Scope Q_scope.

Lemma Qle_bool_true x y : Qle_bool x y = true <-> x <= y.
Proof. apply Qle_bool_iff. Qed.

Lemma Qle_bool_false x y : Qle_bool x y = false <-> y < x.
Proof.
  split; intros H.
  - apply Qnot_le_lt. intros C. apply Qle_bool_iff in C. congruence.
  - destruct (Qle_bool x y) eqn:E; [| reflexivity].
    apply Qle_bool_iff in E. lra.
Qed.




Lemma held_up_abs i :
  held_up i = true ->
  rp_l1 i && rp_r1 i && Qle_bool ry_threshold (Qabs (rp_ry i)) = true /\
  Qle_bool ry_threshold (rp_ry i) = true.
Proof.
  unfold held_up. intros H.
  apply andb_true_iff in H as [H12 Hr]. rewrite H12, Hr. split; [| reflexivity].
  cbn. apply Qle_bool_true. apply Qle_bool_true in Hr.
  pose proof (Qle_Qabs (rp_ry i)). lra.
Qed.

Lemma held_down_abs i :
  held_down i = true ->
  rp_l1 i && rp_r1 i && Qle_bool ry_threshold (Qabs (rp_ry i)) = true /\
  Qle_bool ry_threshold (rp_ry i) = false /\
  Qle_bool (rp_ry i) (- ry_threshold) = true.
Proof.
  unfold held_down. intros H.
  apply andb_true_iff in H as [H12 Hr]. rewrite H12, Hr.
  apply Qle_bool_true in Hr. unfold ry_threshold in *. repeat split.
  - cbn. apply Qle_bool_true. rewrite Qabs_neg by lra. lra.
  - apply Qle_bool_false. lra.
Qed.









End RepeaterProperties.

(** ** Directional pad, poll rate and pointer bounds *)

Section PadProperties.
Local Open Scope Z_scope.

(** X10. In hat mode (the mode is "hat" or absent from the calibration
    map) the directional-pad block never raises, never presses opposite
    directions together, presses nothing for a centred hat, and presses
    nothing when the stored hat index is negative or beyond the device's
    hats. *)
Theorem dpad_hat_mode (js : joystick) (cal : gmap string pyval) :
  cal !! "dpad_mode" = None \/ cal !! "dpad_mode" = Some (PyStr "hat") ->
  exists pressed,
    dpad_pressed js (PyDict cal) = Ok pressed /\
    ~ (DPAD_UP ∈ pressed /\ DPAD_DOWN ∈ pressed) /\
    ~ (DPAD_LEFT ∈ pressed /\ DPAD_RIGHT ∈ pressed) /\
    (forall i, cal !! "hat_index" = Some (PyInt i) ->
               js_hats js !! Z.to_nat i = Some (0, 0) -> pressed = []) /\
    (forall i, cal !! "hat_index" = Some (PyInt i) ->
               i < 0 \/ js_hats js !! Z.to_nat i = None -> pressed = []).
Proof.
  intros Hmode. unfold dpad_pressed. cbn [py_get mbind result_bind].
  assert (Hm : py_eq_str (Some (default (PyStr "hat") (cal !! "dpad_mode")))
                 "hat" = true).
  { destruct Hmode as [-> | ->]; reflexivity. }
  rewrite Hm. eexists. split; [reflexivity |].
  set (h := read_hat js (hat_index_of (default (PyInt 0) (cal !! "hat_index")))).
  assert (Hzero : h = (0, 0) ->
                  (if h.2 =? 1 then [DPAD_UP]
                   else if h.2 =? -1 then [DPAD_DOWN] else [])
                  ++ (if h.1 =? -1 then [DPAD_LEFT]
                      else if h.1 =? 1 then [DPAD_RIGHT] else []) = []).
  { intros ->. reflexivity. }
  split; [| split; [| split]].
  - intros [Hu Hd]. destruct (h.2 =? 1) eqn:E1.
    + apply list_elem_of_In in Hd. cbn in Hd.
      destruct (h.1 =? -1), (h.1 =? 1); cbn in Hd; intuition discriminate.
    + apply list_elem_of_In in Hu.
      destruct (h.2 =? -1), (h.1 =? -1), (h.1 =? 1); cbn in Hu;
        intuition discriminate.
  - intros [Hl Hr]. destruct (h.1 =? -1) eqn:E1.
    + apply list_elem_of_In in Hr.
      destruct (h.2 =? 1), (h.2 =? -1); cbn in Hr; intuition discriminate.
    + apply list_elem_of_In in Hl.
      destruct (h.2 =? 1), (h.2 =? -1), (h.1 =? 1); cbn in Hl;
        intuition discriminate.
  - intros i Hi Hhat. apply Hzero. unfold h, read_hat. rewrite Hi.
    change (hat_index_of (default (PyInt 0) (Some (PyInt i)))) with i.
    destruct ((0 <? get_numhats js) && (0 <=? i)); [| reflexivity].
    unfold get_hat, js_index. destruct (i <? 0); [reflexivity |].
    now rewrite Hhat.
  - intros i Hi Hbad. apply Hzero. unfold h, read_hat. rewrite Hi.
    change (hat_index_of (default (PyInt 0) (Some (PyInt i)))) with i.
    destruct ((0 <? get_numhats js) && (0 <=? i)) eqn:Hg; [| reflexivity].
    unfold get_hat, js_index. destruct (Z.ltb_spec i 0); [reflexivity |].
    destruct Hbad as [Hneg | ->]; [lia | reflexivity].
Qed.

Lemma dpad_hat_mode_witness :
  exists pressed,
    dpad_pressed (with_hat (1, 1) pad_rest)
      (PyDict (<["hat_index" := PyInt 0]> ∅)) = Ok pressed /\
    ~ (DPAD_UP ∈ pressed /\ DPAD_DOWN ∈ pressed) /\
    ~ (DPAD_LEFT ∈ pressed /\ DPAD_RIGHT ∈ pressed).
Proof.
  destruct (dpad_hat_mode (with_hat (1, 1) pad_rest)
              (<["hat_index" := PyInt 0]> ∅)) as (pressed & E & U & L & _).
  { left. reflexivity. }
  exists pressed. auto.
Defined.

End PadProperties.

Section PaceProperties.
Local Open Scope Q_scope.







End PaceProperties.

(** ** The probes of the wizard *)

Section ProbeProperties.
Local Open Scope Q_scope.

(** A poll that returns stopped at the first frame whose body answered;
    every frame before went around the loop. *)
Lemma poll_events_returned {A} (body : joystick -> result (option A))
  evs dev dsk a w' :
  poll_events body evs dev dsk = Returned a w' ->
  exists n js,
    evs !! n = Some (Frame js) /\ body js = Ok (Some a) /\
    device w' = js /\ pending w' = drop (S n) evs /\ disk w' = dsk /\
    forall k ek, (k < n)%nat -> evs !! k = Some ek ->
                 exists jk, ek = Frame jk /\ body jk = Ok None.
Proof.
  revert dev. induction evs as [| [js |] evs IH]; intros dev H; cbn in H;
    try discriminate.
  destruct (body js) as [[b |] | e] eqn:Eb; try discriminate.
  - injection H as <- <-. exists 0%nat, js. cbn.
    repeat split; auto. intros k ek Hk. lia.
  - destruct (IH js H) as (n & jn & En & Bn & Dn & Pn & Kn & Hbefore).
    exists (S n), jn. cbn. repeat split; auto.
    intros [| k] ek Hk Ek; cbn in Ek.
    + injection Ek as <-. eauto.
    + apply (Hbefore k); [lia | exact Ek].
Qed.

Lemma poll_returned {A} (body : joystick -> result (option A)) w a w' :
  poll body w = Returned a w' ->
  exists n js,
    pending w !! n = Some (Frame js) /\ body js = Ok (Some a) /\
    device w' = js /\ pending w' = drop (S n) (pending w) /\
    disk w' = disk w /\
    forall k ek, (k < n)%nat -> pending w !! k = Some ek ->
                 exists jk, ek = Frame jk /\ body jk = Ok None.
Proof. unfold poll. apply poll_events_returned. Qed.

Lemma first_pressed_some i bs r :
  first_pressed i bs = Some r ->
  exists n, r = (i + Z.of_nat n)%Z /\ bs !! n = Some true /\
            forall j, (j < n)%nat -> bs !! j = Some false.
Proof.
  revert i. induction bs as [| b bs IH]; intros i H; cbn in H; [discriminate |].
  destruct b.
  - injection H as <-. exists 0%nat. repeat split; [lia |]. intros j Hj. lia.
  - destruct (IH _ H) as (n & -> & Hn & Hlow).
    exists (S n). repeat split; [lia | exact Hn |].
    intros [| j] Hj; [reflexivity |]. cbn. apply Hlow. lia.
Qed.

Lemma first_pressed_none i bs :
  first_pressed i bs = None -> existsb (fun b => b) bs = false.
Proof.
  revert i. induction bs as [| b bs IH]; intros i H; cbn in *; [reflexivity |].
  destruct b; [discriminate |]. cbn. eauto.
Qed.

(** X13. When [detect_first_button_press] returns an index, that button is
    pressed on the device as the probe leaves it, every button of lower
    index is released there (the first index wins), the index is a valid
    button index, and no button was pressed in any frame the probe went
    through before. *)
Theorem detect_first_button_press_lowest (w w' : world) (idx : Z) :
  detect_first_button_press w = Returned idx w' ->
  (0 <= idx)%Z /\
  js_buttons (device w') !! Z.to_nat idx = Some true /\
  get_button (device w') idx = Ok true /\
  (forall j, (j < Z.to_nat idx)%nat ->
             js_buttons (device w') !! j = Some false) /\
  exists n,
    pending w' = drop (S n) (pending w) /\
    forall k ek, (k < n)%nat -> pending w !! k = Some ek ->
                 exists jk, ek = Frame jk /\ any_button_pressed jk = false.
Proof.
  intros H. unfold detect_first_button_press in H.
  apply poll_returned in H as (n & js & En & Bn & Dn & Pn & _ & Hbefore).
  injection Bn as Bn. subst js.
  apply first_pressed_some in Bn as (m & -> & Hm & Hlow).
  rewrite Z.add_0_l, Nat2Z.id.
  split; [lia |]. split; [exact Hm |]. split.
  { unfold get_button, js_index.
    destruct (Z.ltb_spec (Z.of_nat m) 0); [lia |].
    now rewrite Nat2Z.id, Hm. }
  split; [exact Hlow |].
  exists n. split; [exact Pn |].
  intros k ek Hk Ek. destruct (Hbefore k ek Hk Ek) as (jk & -> & Bk).
  exists jk. split; [reflexivity |].
  injection Bk as Bk. now apply first_pressed_none in Bk.
Qed.

Lemma detect_first_button_press_lowest_witness :
  exists w',
    detect_first_button_press
      (start_world [Frame pad_rest; Frame pad_demo]) = Returned 0%Z w' /\
    get_button (device w') 0 = Ok true.
Proof.
  eexists. split; [reflexivity |].
  apply (detect_first_button_press_lowest
           (start_world [Frame pad_rest; Frame pad_demo])).
  reflexivity.
Defined.

(** X14. When a release wait returns, no button is pressed on the device,
    and for [wait_for_axis_near] the watched axis is within [eps] of its
    rest value; either wait consumes at least one event, so a prompt never
    proceeds on the state captured by the probe before it. *)
Theorem waits_return_at_rest (w w' : world) (axis_index : Z) (rest_value eps : Q) :
  (wait_for_buttons_released w = Returned tt w' ->
   any_button_pressed (device w') = false /\
   (length (pending w') < length (pending w))%nat) /\
  (wait_for_axis_near axis_index rest_value eps w = Returned tt w' ->
   any_button_pressed (device w') = false /\
   (exists v, get_axis (device w') axis_index = Ok v /\
              Qabs (v - rest_value) <= eps) /\
   (length (pending w') < length (pending w))%nat).
Proof.
  split; intros H.
  - unfold wait_for_buttons_released in H.
    apply poll_returned in H as (n & js & En & Bn & Dn & Pn & _).
    subst js. apply lookup_lt_Some in En. split.
    + destruct (any_button_pressed (device w')); [discriminate | reflexivity].
    + rewrite Pn, length_drop. lia.
  - unfold wait_for_axis_near in H.
    apply poll_returned in H as (n & js & En & Bn & Dn & Pn & _).
    subst js. apply lookup_lt_Some in En.
    destruct (get_axis (device w') axis_index) as [v | e]; [| discriminate].
    destruct (Qle_bool (Qabs (v - rest_value)) eps) eqn:Hq;
      [| discriminate].
    destruct (any_button_pressed (device w')); [discriminate |].
    split; [reflexivity |]. split.
    + exists v. split; [reflexivity |]. now apply Qle_bool_iff.
    + rewrite Pn, length_drop. lia.
Qed.

Lemma waits_return_at_rest_witness :
  any_button_pressed pad_rest = false /\
  (length (@nil event) < length [Frame pad_demo; Frame pad_rest])%nat.
Proof.
  apply (waits_return_at_rest
           (start_world [Frame pad_demo; Frame pad_rest])
           {| device := pad_rest; pending := []; disk := Some "old" |}
           0 0 0).
  reflexivity.
Defined.

Lemma axis_deltas_lookup cur rest ds :
  axis_deltas cur rest = Ok ds ->
  (length cur <= length rest)%nat /\
  forall j, ds !! j
            = match cur !! j, rest !! j with
              | Some c, Some r => Some (Qabs (c - r))
              | _, _ => None
              end.
Proof.
  revert rest ds. induction cur as [| c cur IH]; intros rest ds H.
  - cbn in H. injection H as <-. split; [cbn; lia |]. intros j.
    rewrite !lookup_nil. reflexivity.
  - destruct rest as [| r rest]; [discriminate |]. cbn in H.
    destruct (axis_deltas cur rest) as [ds' | e] eqn:E; [| discriminate].
    cbn in H. injection H as <-. destruct (IH _ _ E) as [Hlen Hl].
    split; [cbn; lia |]. intros [| j]; [reflexivity | apply Hl].
Qed.

Lemma best_from_spec ds k bi bd i d :
  best_from k bi bd ds = (i, d) ->
  bd <= d /\
  (forall j dj, ds !! j = Some dj -> dj <= d) /\
  ((i = bi /\ d = bd) \/
   (exists j, i = (k + j)%nat /\ ds !! j = Some d /\ bd < d /\
              forall j' dj', (j' < j)%nat -> ds !! j' = Some dj' -> dj' < d)).
Proof.
  revert k bi bd. induction ds as [| x ds IH]; intros k bi bd H; cbn in H.
  - injection H as <- <-. split; [lra |]. split.
    + intros j dj Hj. now rewrite lookup_nil in Hj.
    + left. auto.
  - destruct (Qlt_le_dec bd x) as [Hlt | Hge].
    + destruct (IH _ _ _ H) as (Hle & Hall & Hwhich).
      split; [lra |]. split.
      * intros [| j] dj Hj; cbn in Hj; [injection Hj as <-; lra | eauto].
      * right. destruct Hwhich as [[-> ->] | (j & -> & Hj & Hlt' & Hlow)].
        -- exists 0%nat. repeat split; [lia | exact Hlt |].
           intros j' dj' Hj'. lia.
        -- exists (S j). repeat split; [lia | exact Hj | lra |].
           intros [| j'] dj' Hj' Ej'; cbn in Ej'.
           ++ injection Ej' as <-. lra.
           ++ apply (Hlow j'); [lia | exact Ej'].
    + destruct (IH _ _ _ H) as (Hle & Hall & Hwhich).
      split; [lra |]. split.
      * intros [| j] dj Hj; cbn in Hj; [injection Hj as <-; lra | eauto].
      * destruct Hwhich as [[-> ->] | (j & -> & Hj & Hlt' & Hlow)];
          [left; auto |].
        right. exists (S j). repeat split; [lia | exact Hj | lra |].
        intros [| j'] dj' Hj' Ej'; cbn in Ej'.
        -- injection Ej' as <-. lra.
        -- apply (Hlow j'); [lia | exact Ej'].
Qed.

(** [best_delta] finds a greatest delta, and the first one among equals. *)
Lemma best_delta_spec ds i d :
  best_delta ds = Some (i, d) ->
  ds !! i = Some d /\
  (forall j dj, ds !! j = Some dj -> dj <= d) /\
  (forall j dj, (j < i)%nat -> ds !! j = Some dj -> dj < d).
Proof.
  destruct ds as [| x ds]; [discriminate |]. cbn. intros H.
  injection H as H. apply best_from_spec in H as (Hle & Hall & Hwhich).
  destruct Hwhich as [[-> ->] | (j & -> & Hj & Hlt & Hlow)].
  - repeat split.
    + intros [| j] dj Hj; cbn in Hj; [injection Hj as <-; lra | eauto].
    + intros j dj Hj. lia.
  - repeat split.
    + exact Hj.
    + intros [| j'] dj Hj'; cbn in Hj'; [injection Hj' as <-; lra | eauto].
    + intros [| j'] dj Hj' Ej'; cbn in Ej'.
      * injection Ej' as <-. exact Hlt.
      * apply (Hlow j'); [lia | exact Ej'].
Qed.

(** The frame an axis probe sampled as rest, and the frame it returned on. *)
Lemma axis_probe_frames {A} (body : list Q -> joystick -> result (option A))
  w a w' :
  (pump ;;; js <~ read_device ;; poll (body (js_axes js))) w = Returned a w' ->
  exists js0 evs,
    pending w = Frame js0 :: evs /\
    body (js_axes js0) (device w') = Ok (Some a) /\
    (length (pending w') < length evs)%nat.
Proof.
  unfold wbind, pump, read_device.
  destruct (pending w) as [| [js0 |] evs] eqn:Ep; try discriminate.
  cbn [device]. intros H.
  apply poll_returned in H as (n & js & En & Bn & Dn & Pn & _).
  cbn [pending] in En, Pn. subst js.
  exists js0, evs. split; [reflexivity |]. split; [exact Bn |].
  apply lookup_lt_Some in En. rewrite Pn, length_drop. lia.
Qed.

(** X15. When [detect_trigger_axis] returns (axis, mode, rest): the rest
    value is what that axis read in the frame sampled first, the mode is the
    classification of that rest value, and on the device as the probe
    leaves it that axis deviates from its rest value by at least
    [min_delta], by at least as much as every other axis and by more than
    every axis of lower index. *)
Theorem detect_trigger_axis_greatest (min_delta : Q) (w w' : world)
  (axis_i : Z) (mode : string) (rest_val : Q) :
  detect_trigger_axis min_delta w = Returned (axis_i, mode, rest_val) w' ->
  exists js0 evs v,
    pending w = Frame js0 :: evs /\
    (0 <= axis_i)%Z /\
    js_axes js0 !! Z.to_nat axis_i = Some rest_val /\
    mode = trigger_mode_of_rest rest_val /\
    js_axes (device w') !! Z.to_nat axis_i = Some v /\
    min_delta <= Qabs (v - rest_val) /\
    (forall j vj rj,
       js_axes (device w') !! j = Some vj -> js_axes js0 !! j = Some rj ->
       Qabs (vj - rj) <= Qabs (v - rest_val)) /\
    (forall j vj rj,
       (j < Z.to_nat axis_i)%nat ->
       js_axes (device w') !! j = Some vj -> js_axes js0 !! j = Some rj ->
       Qabs (vj - rj) < Qabs (v - rest_val)).
Proof.
  intros H. unfold detect_trigger_axis in H.
  apply (axis_probe_frames (trigger_axis_body min_delta)) in H
    as (js0 & evs & Ep & Hb & _).
  unfold trigger_axis_body in Hb.
  destruct (axis_deltas (js_axes (device w')) (js_axes js0)) as [ds | e] eqn:Ed;
    [| discriminate].
  cbn [mbind result_bind] in Hb.
  destruct (best_delta ds) as [[bi bd] |] eqn:Eb; [| discriminate].
  destruct (Qle_bool min_delta bd) eqn:Hq; [| discriminate].
  destruct (js_axes js0 !! bi) as [r |] eqn:Er; [| discriminate].
  injection Hb as <- <- <-.
  apply axis_deltas_lookup in Ed as [_ Hds].
  apply best_delta_spec in Eb as (Hbi & Hmax & Hfirst).
  rewrite Hds, Er in Hbi.
  destruct (js_axes (device w') !! bi) as [v |] eqn:Ev; [| discriminate].
  assert (Ebd : bd = Qabs (v - r)) by congruence. subst bd. clear Hbi.
  exists js0, evs, v. rewrite Nat2Z.id.
  split; [exact Ep |]. split; [lia |]. split; [exact Er |].
  split; [reflexivity |]. split; [exact Ev |].
  split; [now apply Qle_bool_iff |]. split.
  - intros j vj rj Hv Hr. apply (Hmax j). now rewrite Hds, Hv, Hr.
  - intros j vj rj Hj Hv Hr. apply (Hfirst j); [exact Hj |].
    now rewrite Hds, Hv, Hr.
Qed.

Lemma detect_trigger_axis_greatest_witness :
  exists js0 evs v,
    pending (start_world (act_axis 4 1)) = Frame js0 :: evs /\
    (0 <= 4)%Z /\
    js_axes js0 !! Z.to_nat 4 = Some (-1) /\
    "minus1_to_1"%string = trigger_mode_of_rest (-1) /\
    js_axes (with_axis 4 1 pad_rest) !! Z.to_nat 4 = Some v /\
    0.35 <= Qabs (v - -1) /\
    (forall j vj rj,
       js_axes (with_axis 4 1 pad_rest) !! j = Some vj ->
       js_axes js0 !! j = Some rj ->
       Qabs (vj - rj) <= Qabs (v - -1)) /\
    (forall j vj rj,
       (j < Z.to_nat 4)%nat ->
       js_axes (with_axis 4 1 pad_rest) !! j = Some vj ->
       js_axes js0 !! j = Some rj ->
       Qabs (vj - rj) < Qabs (v - -1)).
Proof.
  apply (detect_trigger_axis_greatest 0.35 (start_world (act_axis 4 1))
           {| device := with_axis 4 1 pad_rest; pending := [Frame pad_rest];
              disk := Some "old" |}).
  reflexivity.
Defined.

(** X16. When [detect_axis_by_moving] returns (axis, sign, rest): the rest
    value is what that axis read in the frame sampled first, on the device
    as the probe leaves it the axis deviates from it by at least
    [min_delta] and by at least as much as every other axis, and the sign is
    1 when the axis reads above its rest value and -1 when it reads
    below. *)
Theorem detect_axis_by_moving_sign (min_delta : Q) (w w' : world)
  (axis_i sign : Z) (rest_val : Q) :
  detect_axis_by_moving min_delta w = Returned (axis_i, sign, rest_val) w' ->
  exists js0 evs v,
    pending w = Frame js0 :: evs /\
    (0 <= axis_i)%Z /\
    js_axes js0 !! Z.to_nat axis_i = Some rest_val /\
    js_axes (device w') !! Z.to_nat axis_i = Some v /\
    min_delta <= Qabs (v - rest_val) /\
    (forall j vj rj,
       js_axes (device w') !! j = Some vj -> js_axes js0 !! j = Some rj ->
       Qabs (vj - rj) <= Qabs (v - rest_val)) /\
    ((sign = 1%Z /\ rest_val < v) \/ (sign = (-1)%Z /\ v <= rest_val)) /\
    (0 < min_delta -> sign = (-1)%Z -> v < rest_val).
Proof.
  intros H. unfold detect_axis_by_moving in H.
  apply (axis_probe_frames (moving_axis_body min_delta)) in H
    as (js0 & evs & Ep & Hb & _).
  unfold moving_axis_body in Hb.
  destruct (axis_deltas (js_axes (device w')) (js_axes js0)) as [ds | e] eqn:Ed;
    [| discriminate].
  cbn [mbind result_bind] in Hb.
  destruct (best_delta ds) as [[bi bd] |] eqn:Eb; [| discriminate].
  destruct (Qle_bool min_delta bd) eqn:Hq; [| discriminate].
  destruct (js_axes (device w') !! bi) as [v |] eqn:Ev; [| discriminate].
  destruct (js_axes js0 !! bi) as [r |] eqn:Er; [| discriminate].
  injection Hb as <- <- <-.
  apply axis_deltas_lookup in Ed as [_ Hds].
  apply best_delta_spec in Eb as (Hbi & Hmax & _).
  rewrite Hds, Ev, Er in Hbi.
  assert (Ebd : bd = Qabs (v - r)) by congruence. subst bd. clear Hbi.
  apply Qle_bool_iff in Hq.
  exists js0, evs, v. rewrite Nat2Z.id.
  split; [exact Ep |]. split; [lia |]. split; [exact Er |].
  split; [exact Ev |]. split; [exact Hq |]. split.
  - intros j vj rj Hv Hr. apply (Hmax j). now rewrite Hds, Hv, Hr.
  - destruct (Qlt_le_dec 0 (v - r)) as [Hpos | Hneg]; split.
    + left. split; [reflexivity | lra].
    + intros _ C. discriminate.
    + right. split; [reflexivity | lra].
    + intros Hd _. pose proof (Qabs_neg (v - r) Hneg). lra.
Qed.

Lemma detect_axis_by_moving_sign_witness :
  exists js0 evs v,
    pending (start_world (tail (act_axis 1 (-1)))) = Frame js0 :: evs /\
    (0 <= 1)%Z /\
    js_axes js0 !! Z.to_nat 1 = Some 0 /\
    js_axes (with_axis 1 (-1) pad_rest) !! Z.to_nat 1 = Some v /\
    0.45 <= Qabs (v - 0) /\
    (forall j vj rj,
       js_axes (with_axis 1 (-1) pad_rest) !! j = Some vj ->
       js_axes js0 !! j = Some rj ->
       Qabs (vj - rj) <= Qabs (v - 0)) /\
    (((-1)%Z = 1%Z /\ 0 < v) \/ ((-1)%Z = (-1)%Z /\ v <= 0)) /\
    (0 < 0.45 -> (-1)%Z = (-1)%Z -> v < 0).
Proof.
  apply (detect_axis_by_moving_sign 0.45
           (start_world (tail (act_axis 1 (-1))))
           {| device := with_axis 1 (-1) pad_rest; pending := [Frame pad_rest];
              disk := Some "old" |}).
  reflexivity.
Defined.

End ProbeProperties.

(** ** What the wizard stores and how it reads back *)

Section BindingProperties.
Local Open Scope Z_scope.

Ltac wiz_inv :=
  repeat match goal with
    | H : wbind _ _ _ = Returned _ _ |- _ =>
        let a := fresh "a" in let w := fresh "w" in let E := fresh "E" in
        apply wbind_returned in H as (a & w & E & H)
    | H : wret _ _ = Returned _ _ |- _ => unfold wret in H; injection H as <- <-
    | H : lift (Ok _) _ = Returned _ _ |- _ =>
        unfold lift in H; injection H as <- <-
    | H : (let '(_, _) := ?r in _) _ = Returned _ _ |- _ => destruct r
    end.

Lemma read_button_binding js (d : gmap string pyval) key idx :
  0 <= idx ->
  read_cal_button js (PyDict (<[key := button_binding idx]> d)) key
  = Ok (default false (js_buttons js !! Z.to_nat idx)).
Proof.
  intros Hidx. unfold read_cal_button, button_binding.
  cbn [py_get mbind result_bind]. rewrite lookup_insert_eq.
  cbv [default from_option Datatypes.id]. cbn [py_get mbind result_bind].
  rewrite lookup_insert_eq. cbn [py_eq_str negb].
  rewrite String.eqb_refl. cbn [negb].
  rewrite lookup_insert_ne by discriminate. rewrite lookup_insert_eq.
  cbn [py_int mbind result_bind].
  destruct (Z.ltb_spec idx 0); [lia |].
  unfold get_button, js_index.
  destruct (Z.ltb_spec idx 0); [lia |].
  destruct (js_buttons js !! Z.to_nat idx); reflexivity.
Qed.

Lemma read_button_other js (d : gmap string pyval) key k v :
  k <> key ->
  read_cal_button js (PyDict (<[key := v]> d)) k
  = read_cal_button js (PyDict d) k.
Proof.
  intros Hne. unfold read_cal_button. cbn [py_get mbind result_bind].
  now rewrite lookup_insert_ne by congruence.
Qed.

(** X17. A button captured by the wizard reads back: after [probe_button]
    returns, the calibration map holds a button binding with a valid index
    under the key, [read_cal_button] on that key answers the state of that
    very button on any device state ([False] if the device has no such
    button), the button was pressed when it was captured, and the reading
    of every other key is what it was. *)
Theorem probe_button_reads_back (key : string) (cal cal' : gmap string pyval)
  (w w' : world) :
  probe_button key cal w = Returned cal' w' ->
  exists idx w1,
    0 <= idx /\
    cal' = <[key := button_binding idx]> cal /\
    detect_first_button_press w = Returned idx w1 /\
    read_cal_button (device w1) (PyDict cal') key = Ok true /\
    (forall js, read_cal_button js (PyDict cal') key
                = Ok (default false (js_buttons js !! Z.to_nat idx))) /\
    (forall js k, k <> key ->
                  read_cal_button js (PyDict cal') k
                  = read_cal_button js (PyDict cal) k).
Proof.
  unfold probe_button. intros H. wiz_inv.
  clear E0. clear dependent w1. rename a into idx, w0 into w1.
  assert (Hp := E). unfold detect_first_button_press in Hp.
  apply poll_returned in Hp as (n & js & _ & Bn & Dn & _).
  injection Bn as Bn. apply first_pressed_some in Bn as (m & Hidx & Hm & _).
  rewrite Z.add_0_l in Hidx. subst js.
  exists idx, w1. split; [lia |]. split; [reflexivity |].
  split; [exact E |]. split.
  - rewrite read_button_binding by lia. subst idx.
    now rewrite Nat2Z.id, Hm.
  - split.
    + intros js. apply read_button_binding. lia.
    + intros js k Hne. now apply read_button_other.
Qed.

Lemma probe_button_reads_back_witness :
  exists idx w1,
    detect_first_button_press (start_world (tail (act pad_demo)))
    = Returned idx w1 /\
    read_cal_button (device w1)
      (PyDict (<["l3" := button_binding 0]> (∅ : gmap string pyval))) "l3"
    = Ok true.
Proof.
  destruct (probe_button_reads_back "l3" ∅ (<["l3" := button_binding 0]> ∅)
              (start_world (tail (act pad_demo)))
              {| device := pad_rest; pending := []; disk := Some "old" |})
    as (idx & w1 & _ & _ & Hd & Hr & _); [reflexivity |].
  exists idx, w1. split; [exact Hd | exact Hr].
Defined.

(** X18. [read_cal_trigger] never returns a value outside [0,255], whatever
    the calibration and the device state; and on an axis binding as the
    wizard stores it, it answers the normalisation of that axis in the
    stored mode, or 0 if the device has no such axis. *)
Theorem read_cal_trigger_range (js : joystick) (cal : pyval) (key : string) :
  (forall v, read_cal_trigger js cal key = Ok v -> 0 <= v <= 255) /\
  (forall (d : gmap string pyval) i mode r,
     0 <= i ->
     read_cal_trigger js (PyDict (<[key := axis_binding i mode r]> d)) key
     = Ok (match js_axes js !! Z.to_nat i with
           | Some v => axis_to_trigger_0_255 v mode
           | None => 0
           end)).
Proof.
  split.
  - intros v. unfold read_cal_trigger.
    destruct (py_get cal key) as [found | e]; cbn [mbind result_bind];
      [| discriminate].
    destruct (py_get (default (PyDict ∅) found) "type") as [ty | e];
      cbn [mbind result_bind]; [| discriminate].
    destruct (negb (py_eq_str ty "axis")); [intros E; injection E as <-; lia |].
    destruct (py_get (default (PyDict ∅) found) "index") as [ix | e];
      cbn [mbind result_bind]; [| discriminate].
    destruct (py_int (default (PyInt (-1)) ix)) as [ai | e];
      cbn [mbind result_bind]; [| discriminate].
    destruct (py_get (default (PyDict ∅) found) "mode") as [m | e];
      cbn [mbind result_bind]; [| discriminate].
    destruct (ai <? 0); [intros E; injection E as <-; lia |].
    destruct (get_axis js ai) as [x | e]; intros E; injection E as <-;
      [apply axis_to_trigger_bounds | lia].
  - intros d i mode r Hi. unfold read_cal_trigger, axis_binding.
    cbn [py_get mbind result_bind]. rewrite lookup_insert_eq.
    cbv [default from_option Datatypes.id]. cbn [py_get mbind result_bind].
    rewrite lookup_insert_eq. cbn [py_eq_str].
    rewrite String.eqb_refl. cbn [negb].
    repeat first [rewrite lookup_insert_eq
                 | rewrite lookup_insert_ne by discriminate].
    cbn [py_int py_str mbind result_bind].
    destruct (Z.ltb_spec i 0); [lia |].
    unfold get_axis, js_index.
    destruct (Z.ltb_spec i 0); [lia |].
    destruct (js_axes js !! Z.to_nat i); reflexivity.
Qed.

Lemma read_cal_trigger_range_witness :
  read_cal_trigger (with_axis 4 1 pad_rest)
    (PyDict (<["l2_lt" := axis_binding 4 "minus1_to_1" (-1)]> ∅)) "l2_lt"
  = Ok 255.
Proof.
  apply (read_cal_trigger_range (with_axis 4 1 pad_rest) PyNone "l2_lt").
  lia.
Defined.

End BindingProperties.

(** ** Loading, copying and restarting *)

Section LoadingProperties.

Context (json_dumps : gmap string pyval -> string)
        (json_loads : string -> option pyval).

Lemma apply_fields_self (d c : gmap string pyval) :
  (forall k, is_Some (c !! k) <-> is_Some (d !! k)) ->
  apply_fields d (map_to_list c) = c.
Proof.
  intros Hdom. apply map_eq. intros k. rewrite apply_fields_map.
  specialize (Hdom k). destruct (d !! k) as [old |] eqn:Hd.
  - destruct (proj2 Hdom (ex_intro _ old eq_refl)) as [v ->]. reflexivity.
  - destruct (c !! k) as [v |] eqn:Hc; [| reflexivity].
    destruct (proj1 Hdom (ex_intro _ v eq_refl)) as [x Hx]. discriminate.
Qed.



(** X20. Saving and loading round-trip: on a codec that reads back the
    text it wrote for a configuration, [load_config] on the document that
    [save_config] has written gives that configuration back and leaves the
    document as written. *)
Theorem save_then_load_round_trip (c : gmap string pyval) (w w' : world) :
  config_shaped c ->
  json_loads (json_dumps c) = Some (PyDict c) ->
  save_config json_dumps c w = Returned tt w' ->
  load_config json_dumps json_loads (disk w') = Ok (c, disk w') /\
  device w' = device w /\ pending w' = pending w.
Proof.
  intros Hshape Hcodec Hsave. unfold save_config in Hsave.
  injection Hsave as <-. cbn [disk device pending].
  split; [| split; reflexivity].
  unfold load_config. rewrite Hcodec.
  now rewrite (apply_fields_self default_config c Hshape).
Qed.

Lemma set_fields_other (l : list (string * pyval)) (m : gmap string pyval) k :
  k ∉ l.*1 ->
  foldl (fun snap kv => <[kv.1 := kv.2]> snap) m l !! k = m !! k.
Proof.
  revert m. induction l as [| [k' v'] l IH]; intros m Hk; [reflexivity |].
  cbn [foldl fst snd]. cbn [fmap list_fmap fst] in Hk.
  apply not_elem_of_cons in Hk as [Hne Hk].
  rewrite IH by exact Hk. now rewrite lookup_insert_ne.
Qed.

Lemma set_fields_known (l : list (string * pyval)) (m : gmap string pyval) k v :
  NoDup l.*1 -> (k, v) ∈ l ->
  foldl (fun snap kv => <[kv.1 := kv.2]> snap) m l !! k = Some v.
Proof.
  revert m. induction l as [| [k' v'] l IH]; intros m Hnd Hin.
  - now apply elem_of_nil in Hin.
  - cbn [foldl fst snd]. cbn [fmap list_fmap fst] in Hnd.
    apply NoDup_cons in Hnd as [Hfresh Hnd].
    apply elem_of_cons in Hin as [Heq | Hin].
    + injection Heq as <- <-. rewrite set_fields_other by exact Hfresh.
      apply lookup_insert_eq.
    + now apply IH.
Qed.

(** X21. [snapshot] holds every attribute of the live configuration with
    its live value, and the default of an attribute the live one lacks; of
    a configuration that holds the attributes of [Config()] it is an exact
    copy, whatever the cached text. *)
Theorem snapshot_copies (st : SharedState) :
  (forall k v, cfg st !! k = Some v -> snapshot st !! k = Some v) /\
  (forall k, cfg st !! k = None -> snapshot st !! k = default_config !! k) /\
  (config_shaped (cfg st) -> snapshot st = cfg st).
Proof.
  assert (Hsome : forall k v, cfg st !! k = Some v -> snapshot st !! k = Some v).
  { intros k v Hk. unfold snapshot. apply set_fields_known.
    - apply NoDup_fst_map_to_list.
    - now apply elem_of_map_to_list. }
  assert (Hnone : forall k, cfg st !! k = None ->
                            snapshot st !! k = default_config !! k).
  { intros k Hk. unfold snapshot. apply set_fields_other.
    intros Hin. apply list_elem_of_fmap in Hin as ([k' v'] & -> & Hin).
    apply elem_of_map_to_list in Hin. cbn in Hk. congruence. }
  split; [exact Hsome |]. split; [exact Hnone |].
  intros Hshape. apply map_eq. intros k.
  destruct (cfg st !! k) as [v |] eqn:Hk; [now apply Hsome |].
  rewrite (Hnone k Hk).
  destruct (default_config !! k) as [x |] eqn:Hd; [| reflexivity].
  destruct (proj2 (Hshape k) (ex_intro _ x Hd)) as [y Hy]. congruence.
Qed.

(** X22. A reload settles: when [maybe_reload_from_disk] returns, a second
    reload against the same content of the document returns the state it
    is given, for every parser. *)
Theorem maybe_reload_settles (st st' : SharedState) (dsk : option string) :
  maybe_reload_from_disk json_loads st dsk = Ok st' ->
  maybe_reload_from_disk json_loads st' dsk = Ok st'.
Proof.
  unfold maybe_reload_from_disk. destruct dsk as [txt |]; [| now intros [= <-]].
  destruct (bool_decide (Some txt = last_saved_cfg_json st)) eqn:Ec.
  - intros [= <-]. now rewrite Ec.
  - destruct (json_loads txt) as [[| | | | | | data] |] eqn:El;
      try discriminate; intros [= <-].
    + cbn [last_saved_cfg_json]. now rewrite bool_decide_eq_true_2.
    + now rewrite Ec.
Qed.

Ltac wz_inv :=
  repeat match goal with
    | H : wbind _ _ _ = Returned _ _ |- _ =>
        let a := fresh "a" in let w := fresh "w" in let E := fresh "E" in
        apply wbind_returned in H as (a & w & E & H)
    | H : wret _ _ = Returned _ _ |- _ => unfold wret in H; injection H as <- <-
    | H : (let '(_, _) := ?r in _) _ = Returned _ _ |- _ => destruct r
    end.

Lemma calibrate_sticks_frame c cal w c' cal' w' :
  calibrate_sticks c cal w = Returned (c', cal') w' ->
  (forall k, k ∉ wizard_attrs -> c' !! k = c !! k) /\
  (forall k, is_Some (c !! k) -> is_Some (c' !! k)) /\
  (forall k, k <> "stick_axes" -> cal' !! k = cal !! k).
Proof.
  unfold calibrate_sticks. intros H. wz_inv. split; [| split].
  - intros k Hk.
    repeat (rewrite lookup_insert_ne;
            [| intros <-; apply Hk; compute_done]).
    reflexivity.
  - intros k Hk.
    repeat (apply lookup_insert_is_Some'; right). exact Hk.
  - intros k Hk. now rewrite lookup_insert_ne.
Qed.

Lemma run_steps_other keys cal w cal' w' :
  run_steps keys cal w = Returned cal' w' ->
  forall k, k ∉ keys -> cal' !! k = cal !! k.
Proof.
  revert cal w. induction keys as [| key keys IH]; intros cal w H k Hk;
    cbn [run_steps] in H.
  - wz_inv. reflexivity.
  - apply wbind_returned in H as (cal1 & w1 & Hstep & H).
    apply calibrate_step_returned in Hstep as [v ->].
    apply not_elem_of_cons in Hk as [Hne Hk].
    rewrite (IH _ _ H k Hk). now rewrite lookup_insert_ne.
Qed.

Lemma calibrate_controller_returned c w c' w' :
  calibrate_controller json_dumps c w = Returned c' w' ->
  (forall k, k ∉ wizard_attrs -> c' !! k = c !! k) /\
  (forall k, is_Some (c !! k) -> is_Some (c' !! k)) /\
  exists cal,
    c' !! "calibration" = Some (PyDict cal) /\
    cal !! "dpad_mode"
    = Some (PyStr (if (0 <? get_numhats (device w))%Z
                   then "hat" else "buttons")) /\
    cal !! "hat_index"
    = Some (PyInt (if (0 <? get_numhats (device w))%Z then 0 else -1)).
Proof using json_dumps.
  unfold calibrate_controller. intros H. wz_inv.
  unfold read_device in E. injection E as <- <-.
  clear E0 E3 E4.
  apply calibrate_sticks_frame in E1 as (Hout & Hkeep & Hcal).
  pose proof (run_steps_other _ _ _ _ _ E2) as Hsteps.
  split; [| split].
  - intros k Hk.
    repeat (rewrite lookup_insert_ne;
            [| intros <-; apply Hk; compute_done]).
    now apply Hout.
  - intros k Hk.
    repeat (apply lookup_insert_is_Some'; right). now apply Hkeep.
  - eexists. split.
    { rewrite lookup_insert_ne by discriminate. apply lookup_insert_eq. }
    split.
    + rewrite Hsteps by compute_done.
      rewrite Hcal by discriminate. apply lookup_insert_eq.
    + rewrite Hsteps by compute_done.
      rewrite Hcal by discriminate.
      rewrite lookup_insert_ne by discriminate. apply lookup_insert_eq.
Qed.

Lemma wizard_attrs_default k :
  k ∈ wizard_attrs -> is_Some (default_config !! k).
Proof.
  intros Hin. apply list_elem_of_In in Hin. cbn in Hin.
  repeat destruct Hin as [<- | Hin]; try (vm_compute; eauto); contradiction.
Qed.

Lemma calibrate_controller_shape c w c' w' :
  calibrate_controller json_dumps c w = Returned c' w' ->
  config_shaped c -> config_shaped c'.
Proof using json_dumps.
  intros H Hshape k.
  apply calibrate_controller_returned in H as (Hout & Hkeep & _).
  split.
  - intros Hk. destruct (decide (k ∈ wizard_attrs)) as [Hin | Hnin].
    + now apply wizard_attrs_default.
    + apply Hshape. now rewrite <- (Hout k Hnin).
  - intros Hk. apply Hkeep, Hshape, Hk.
Qed.

(** X23. What a completed wizard changes: outside the six stick
    attributes, [calibration] and [calibrated] the configuration returned
    is the one passed in; a configuration object stays one; and the
    calibration map records the directional-pad mode read from the device
    before the first prompt: hat 0 when the device has a hat, buttons and
    hat index -1 when it has none. *)
Theorem calibrate_controller_frame (c : gmap string pyval) (w : world)
  (c' : gmap string pyval) (w' : world) :
  calibrate_controller json_dumps c w = Returned c' w' ->
  (forall k, k ∉ wizard_attrs -> c' !! k = c !! k) /\
  (config_shaped c -> config_shaped c') /\
  exists cal,
    c' !! "calibration" = Some (PyDict cal) /\
    cal !! "dpad_mode"
    = Some (PyStr (if (0 <? get_numhats (device w))%Z
                   then "hat" else "buttons")) /\
    cal !! "hat_index"
    = Some (PyInt (if (0 <? get_numhats (device w))%Z then 0 else -1)).
Proof using json_dumps.
  intros H.
  pose proof (calibrate_controller_shape _ _ _ _ H) as Hshape.
  apply calibrate_controller_returned in H as (Hout & _ & Hcal).
  split; [exact Hout |]. split; [exact Hshape | exact Hcal].
Qed.

(** X24. A completed calibration survives a restart: on a codec that reads
    back the text written for the configuration the wizard returns,
    [load_config] on the document the wizard leaves gives that
    configuration back, the document stays, and the calibration phase of
    [main] without [--recalibrate] skips the wizard: it returns the
    configuration at once, with no event consumed and nothing written. *)
Theorem calibration_survives_restart (c : gmap string pyval) (w : world)
  (c' : gmap string pyval) (w' : world) :
  config_shaped c ->
  calibrate_controller json_dumps c w = Returned c' w' ->
  json_loads (json_dumps c') = Some (PyDict c') ->
  load_config json_dumps json_loads (disk w') = Ok (c', disk w') /\
  (forall w2, main_calibration json_dumps false c' w2 = Returned (Some c') w2).
Proof.
  intros Hshape H Hcodec.
  pose proof (calibrate_controller_shape _ _ _ _ H Hshape) as Hshape'.
  pose proof (calibrate_controller_outcome json_dumps c w) as Hout.
  rewrite H in Hout. destruct Hout as (Hdisk & Hcal & _).
  split.
  - rewrite Hdisk. unfold load_config. rewrite Hcodec.
    now rewrite (apply_fields_self default_config c' Hshape').
  - intros w2. unfold main_calibration, wbind, lift. rewrite Hcal.
    reflexivity.
Qed.

End LoadingProperties.



Lemma loads_only_reads_back (c : gmap string pyval) :
  loads_only c (demo_dumps c) = Some (PyDict c).
Proof. unfold loads_only. now rewrite String.eqb_refl. Qed.

Lemma save_then_load_round_trip_witness :
  load_config demo_dumps (loads_only default_config)
    (Some (demo_dumps default_config))
  = Ok (default_config, Some (demo_dumps default_config)).
Proof.
  apply (save_then_load_round_trip demo_dumps (loads_only default_config)
           default_config (start_world [])
           {| device := pad_rest; pending := [];
              disk := Some (demo_dumps default_config) |}).
  - intros k. reflexivity.
  - apply loads_only_reads_back.
  - reflexivity.
Defined.

Lemma snapshot_copies_witness :
  snapshot fresh_state = default_config.
Proof.
  apply (snapshot_copies fresh_state). intros k. reflexivity.
Defined.

Lemma maybe_reload_settles_witness :
  maybe_reload_from_disk demo_loads
    {| cfg := <["wrap_yaw" := PyBool false]> default_config;
       last_saved_cfg_json := Some edited_doc |} (Some edited_doc)
  = Ok {| cfg := <["wrap_yaw" := PyBool false]> default_config;
          last_saved_cfg_json := Some edited_doc |}.
Proof.
  apply (maybe_reload_settles demo_loads fresh_state).
  vm_compute. reflexivity.
Defined.

Lemma calibrated_run_ends :
  raised calibrated_run = None /\ waiting calibrated_run = false.
Proof. split; vm_compute; reflexivity. Qed.

Lemma calibrated_run_returns :
  calibrate_controller demo_dumps default_config (start_world operator_script)
  = Returned calibrated_config (final_world calibrated_run).
Proof.
  change (calibrated_run
          = Returned (default ∅ (returned calibrated_run))
                     (final_world calibrated_run)).
  destruct calibrated_run_ends as [Hr Hw].
  destruct calibrated_run as [c w | e w | w];
    [reflexivity | discriminate | discriminate].
Qed.

Lemma calibrate_controller_frame_witness :
  calibrated_config !! "poll_hz" = default_config !! "poll_hz".
Proof.
  destruct (calibrate_controller_frame demo_dumps default_config
              (start_world operator_script) calibrated_config
              (final_world calibrated_run) calibrated_run_returns)
    as (Hout & _).
  apply Hout. compute_done.
Defined.

Lemma calibration_survives_restart_witness :
  load_config demo_dumps (loads_only calibrated_config)
    (disk (final_world calibrated_run))
  = Ok (calibrated_config, disk (final_world calibrated_run)).
Proof.
  apply (calibration_survives_restart demo_dumps (loads_only calibrated_config)
           default_config (start_world operator_script) calibrated_config
           (final_world calibrated_run)).
  - intros k. reflexivity.
  - exact calibrated_run_returns.
  - apply loads_only_reads_back.
Defined.
